(** * MySQL node: query building, result shaping and error handling

    A shallow embedding of [src/nodes/mysql.node.js] ([execute]) and of
    [src/credentials/mysqlDb.credentials.js] ([test]).

    The database driver (mysql2), the host's credential and parameter
    providers and the engine's [JSON.parse] are external collaborators: they
    are taken as an interface ([Driver], [Engine]) and as fields of the
    invocation context.  Everything the node itself computes (statement text,
    positional parameters, output records, the per-item error policy, the
    classification of connection errors) is defined below as executable
    functions. *)

From Stdlib Require Import String Ascii List ZArith Bool Lia DecimalString
  Permutation.
Import ListNotations.
Open Scope string_scope.
Open Scope Z_scope.

Set Implicit Arguments.
Set Warnings "-register-all".

(* ================================================================== *)
(** * JavaScript values *)
(* ================================================================== *)

Module Js.

(** JSON-like JavaScript values.  Strings are sequences of 8-bit code units.
    Numbers are the integer-valued ones (row counts, ids, limits); NaN is the
    [None] of [to_number].  Objects keep their properties in insertion order. *)
Inductive JsVal : Type :=
| JUndefined
| JNull
| JBool (b : bool)
| JNum (n : Z)
| JStr (s : string)
| JArr (l : list JsVal)
| JObj (o : list (string * JsVal)).

Definition Obj := list (string * JsVal).

(** A thrown [Error] object: [name], [message] and the driver's [code]. *)
Record JsError : Type := mkError {
  e_name : string;
  e_message : string;
  e_code : JsVal
}.

(** [new Error(msg)] *)
Definition Error (msg : string) : JsError := mkError "Error" msg JUndefined.

Definition TypeError (msg : string) : JsError := mkError "TypeError" msg JUndefined.

(** Result of an evaluation that may throw. *)
Inductive Res (A : Type) : Type :=
| Ok (a : A)
| Throw (e : JsError).
Arguments Throw {A} e.


(** ** Strings *)

Definition str_empty (s : string) : bool :=
  match s with EmptyString => true | _ => false end.

(** [xs.join(sep)] on strings *)
Fixpoint join (sep : string) (xs : list string) : string :=
  match xs with
  | [] => EmptyString
  | [x] => x
  | x :: rest => x ++ sep ++ join sep rest
  end.

(** [s.split(",")]: the pieces between commas, an empty string giving one
    empty piece. *)
Fixpoint split_comma_aux (cur : string) (s : string) : list string :=
  match s with
  | EmptyString => [cur]
  | String c rest =>
      if Ascii.eqb c ","%char
      then cur :: split_comma_aux EmptyString rest
      else split_comma_aux (cur ++ String c EmptyString) rest
  end.

Definition split_comma (s : string) : list string :=
  split_comma_aux EmptyString s.

(** White space removed by [String.prototype.trim], among 8-bit code units:
    TAB, LF, VT, FF, CR, SP and NBSP. *)
Definition is_space (c : ascii) : bool :=
  let n := nat_of_ascii c in
  (Nat.eqb n 9 || Nat.eqb n 10 || Nat.eqb n 11 || Nat.eqb n 12
   || Nat.eqb n 13 || Nat.eqb n 32 || Nat.eqb n 160)%bool.

Fixpoint trim_left (s : string) : string :=
  match s with
  | EmptyString => EmptyString
  | String c rest => if is_space c then trim_left rest else s
  end.

Fixpoint rev_string (acc s : string) : string :=
  match s with
  | EmptyString => acc
  | String c rest => rev_string (String c acc) rest
  end.

Definition trim (s : string) : string :=
  rev_string EmptyString (trim_left (rev_string EmptyString (trim_left s))).

(** Decimal rendering of an integer-valued number. *)
Definition num_to_string (n : Z) : string :=
  NilZero.string_of_int (Z.to_int n).

(** ** Conversions *)

(** [ToBoolean] *)
Definition truthy (v : JsVal) : bool :=
  match v with
  | JUndefined | JNull => false
  | JBool b => b
  | JNum n => negb (Z.eqb n 0)
  | JStr s => negb (str_empty s)
  | JArr _ | JObj _ => true
  end.

Definition nullish (v : JsVal) : bool :=
  match v with JUndefined | JNull => true | _ => false end.

(** [a || b] *)
Definition js_or (a b : JsVal) : JsVal := if truthy a then a else b.

(** [a ?? b] *)
Definition js_coalesce (a b : JsVal) : JsVal := if nullish a then b else a.

(** [ToString], as used by template literals.  Inside [Array.prototype.join]
    a null or undefined element renders as the empty string. *)
Fixpoint to_string (v : JsVal) : string :=
  match v with
  | JUndefined => "undefined"
  | JNull => "null"
  | JBool true => "true"
  | JBool false => "false"
  | JNum n => num_to_string n
  | JStr s => s
  | JArr l =>
      join ","
        ((fix elems (l : list JsVal) : list string :=
            match l with
            | [] => []
            | x :: rest =>
                (if nullish x then EmptyString else to_string x) :: elems rest
            end) l)
  | JObj _ => "[object Object]"
  end.

(** [v === "lit"] for a string literal *)
Definition strict_eq_str (v : JsVal) (lit : string) : bool :=
  match v with JStr s => String.eqb s lit | _ => false end.

(** [typeof v === "string"] *)
Definition is_string (v : JsVal) : bool :=
  match v with JStr _ => true | _ => false end.

(** [Array.isArray(v)] *)
Definition is_array (v : JsVal) : bool :=
  match v with JArr _ => true | _ => false end.

(** ** Objects *)

(** [o[k]] on the property list: the first binding of [k]. *)
Fixpoint obj_get (k : string) (o : Obj) : option JsVal :=
  match o with
  | [] => None
  | (k', v) :: rest => if String.eqb k k' then Some v else obj_get k rest
  end.

(** Defining property [k]: an existing property keeps its place and takes the
    new value, a new one goes last. *)
Fixpoint obj_set (k : string) (v : JsVal) (o : Obj) : Obj :=
  match o with
  | [] => [(k, v)]
  | (k', v') :: rest =>
      if String.eqb k k' then (k, v) :: rest else (k', v') :: obj_set k v rest
  end.

(** Defining a list of properties from left to right, as an object literal
    does with the properties that follow a spread. *)
Definition obj_assign (o : Obj) (props : Obj) : Obj :=
  fold_left (fun acc kv => obj_set (fst kv) (snd kv) acc) props o.

Definition keys (o : Obj) : list string := map fst o.

(** *** Property order

    [Object.keys], [Object.values] and spread enumerate array-index keys
    first, in ascending numeric order, then the other keys in insertion
    order. *)

Definition digit_of (c : ascii) : option N :=
  let n := N_of_ascii c in
  if ((48 <=? n) && (n <=? 57))%N then Some (n - 48)%N else None.

Fixpoint digits_value (acc : N) (s : string) : option N :=
  match s with
  | EmptyString => Some acc
  | String c rest =>
      match digit_of c with
      | Some d => digits_value (acc * 10 + d)%N rest
      | None => None
      end
  end.

(** The array index a key denotes: a canonical decimal numeral below
    2^32 - 1. *)
Definition index_of_key (k : string) : option N :=
  match k with
  | EmptyString => None
  | String c rest =>
      if (Ascii.eqb c "0"%char && negb (str_empty rest))%bool then None
      else match digits_value 0%N k with
           | Some n => if (n <? 4294967295)%N then Some n else None
           | None => None
           end
  end.

Fixpoint insert_index (n : N) (kv : string * JsVal)
         (l : list (N * (string * JsVal))) : list (N * (string * JsVal)) :=
  match l with
  | [] => [(n, kv)]
  | (m, kv') :: rest =>
      if (n <? m)%N then (n, kv) :: l else (m, kv') :: insert_index n kv rest
  end.

Fixpoint index_props (o : Obj) : list (N * (string * JsVal)) :=
  match o with
  | [] => []
  | (k, v) :: rest =>
      match index_of_key k with
      | Some n => insert_index n (k, v) (index_props rest)
      | None => index_props rest
      end
  end.

Definition named_props (o : Obj) : Obj :=
  filter (fun kv => match index_of_key (fst kv) with
                    | Some _ => false | None => true end) o.

Definition ordered_props (o : Obj) : Obj :=
  (map snd (index_props o) ++ named_props o)%list.

Definition index_key (i : nat) : string := num_to_string (Z.of_nat i).

Fixpoint indexed_from (i : nat) (l : list JsVal) : Obj :=
  match l with
  | [] => []
  | x :: rest => (index_key i, x) :: indexed_from (S i) rest
  end.

Fixpoint chars_of (s : string) : list JsVal :=
  match s with
  | EmptyString => []
  | String c rest => JStr (String c EmptyString) :: chars_of rest
  end.

(** Own enumerable string-keyed properties of a value, in property order.
    Numbers, booleans, null and undefined have none. *)
Definition own_props (v : JsVal) : Obj :=
  match v with
  | JObj o => ordered_props o
  | JArr l => indexed_from 0 l
  | JStr s => indexed_from 0 (chars_of s)
  | _ => []
  end.

(** [{ ...v }] *)
Definition spread (v : JsVal) : Obj := obj_assign [] (own_props v).

Definition cannot_convert : JsError :=
  TypeError "Cannot convert undefined or null to object".

(** [Object.keys(v)] *)
Definition object_keys (v : JsVal) : Res (list string) :=
  if nullish v then Throw cannot_convert else Ok (map fst (own_props v)).

(** [Object.values(v)] *)
Definition object_values (v : JsVal) : Res (list JsVal) :=
  if nullish v then Throw cannot_convert else Ok (map snd (own_props v)).

(** ** Property access *)

Definition cannot_read (v : JsVal) (k : string) : JsError :=
  TypeError ("Cannot read properties of " ++ to_string v
             ++ " (reading '" ++ k ++ "')").

(** [v.k] (also [v[0]] with [k = "0"]): throws on null and undefined; an
    absent property reads as undefined. *)
Definition get_prop (v : JsVal) (k : string) : Res JsVal :=
  match v with
  | JUndefined | JNull => Throw (cannot_read v k)
  | JObj o => Ok (match obj_get k o with Some x => x | None => JUndefined end)
  | JArr l =>
      if String.eqb k "length" then Ok (JNum (Z.of_nat (List.length l)))
      else match index_of_key k with
           | Some n => Ok (nth (N.to_nat n) l JUndefined)
           | None => Ok JUndefined
           end
  | JStr s =>
      if String.eqb k "length" then Ok (JNum (Z.of_nat (String.length s)))
      else match index_of_key k with
           | Some n => Ok (nth (N.to_nat n) (chars_of s) JUndefined)
           | None => Ok JUndefined
           end
  | JBool _ | JNum _ => Ok JUndefined
  end.

(** [v?.k] *)
Definition get_prop_opt (v : JsVal) (k : string) : JsVal :=
  match get_prop v k with Ok x => x | Throw _ => JUndefined end.

(** ** Numeric comparison *)

(** Value of a string as a number: white space trimmed, empty is 0, a
    decimal integer numeral is its value, anything else is NaN. *)
Definition string_to_number (s : string) : option Z :=
  let t := trim s in
  match t with
  | EmptyString => Some 0
  | String c rest =>
      if Ascii.eqb c "-"%char then
        (if str_empty rest then None
         else option_map (fun n => - Z.of_N n) (digits_value 0%N rest))
      else if Ascii.eqb c "+"%char then
        (if str_empty rest then None
         else option_map Z.of_N (digits_value 0%N rest))
      else option_map Z.of_N (digits_value 0%N t)
  end.

(** [ToNumber]; [None] is NaN. *)
Definition to_number (v : JsVal) : option Z :=
  match v with
  | JUndefined => None
  | JNull => Some 0
  | JBool b => Some (if b then 1 else 0)
  | JNum n => Some n
  | JStr s => string_to_number s
  | JArr _ | JObj _ => string_to_number (to_string v)
  end.

(** [v > 0] *)
Definition gt_zero (v : JsVal) : bool :=
  match to_number v with Some n => 0 <? n | None => false end.

End Js.

Import Js.

(* ================================================================== *)
(** * External collaborators and effects *)
(* ================================================================== *)

(** What is attached to a log line. *)
Inductive LogData : Type :=
| LNone
| LVal (v : JsVal)
| LErr (e : JsError).

(** Calls the node makes on the driver and the host's logger, in order. *)
Inductive Event : Type :=
| EvLog (level : string) (msg : string) (data : LogData)
| EvCreatePool (config : Obj)
| EvCreateConnection (config : Obj)
| EvExecute (sql : JsVal) (params : list JsVal)
| EvEnd.

Definition is_execute (ev : Event) : bool :=
  match ev with EvExecute _ _ => true | _ => false end.

Definition is_open (ev : Event) : bool :=
  match ev with EvCreatePool _ | EvCreateConnection _ => true | _ => false end.

(** The database client library, over its own state [DB]:
    [drv_connect] is [mysql.createConnection(config)], [drv_execute] is
    [pool.execute(sql, params)] / [connection.execute(sql, params)] and
    resolves to the pair [[rows, fields]], [drv_end] is [pool.end()] /
    [connection.end()].  Each may reject. *)
Class Driver (DB : Type) : Type := {
  drv_connect : DB -> Obj -> DB * Res unit;
  drv_execute : DB -> JsVal -> list JsVal -> DB * Res (JsVal * JsVal);
  drv_end : DB -> DB * Res unit
}.

(** The engine's [JSON.parse]. *)
Class Engine : Type := {
  JSON_parse : string -> Res JsVal
}.

(** The host's side of [this]: the settings object, the credential provider
    and the parameter provider.  [execute] passes no item index to
    [getNodeParameter]. *)
Record Host : Type := {
  settings : JsVal;
  getCredentials : string -> Res JsVal;
  getNodeParameter : string -> JsVal
}.

(** One unit of workflow data. *)
Record Item : Type := { json : JsVal }.

(** [inputData]: [main] may be missing. *)
Record InputData : Type := { main : option (list (list Item)) }.

Section Effects.

Context {DB : Type}.

(** Outcome of a computation started in some driver state: the state it
    leaves, the calls it made and its value or thrown error. *)
Record Out (A : Type) : Type := mkOut {
  out_db : DB;
  out_events : list Event;
  out_res : Res A
}.

Definition M (A : Type) : Type := DB -> Out A.

Definition ret {A} (a : A) : M A := fun db => mkOut db [] (Ok a).

Definition throw {A} (e : JsError) : M A := fun db => mkOut db [] (Throw e).

Definition bind {A B} (m : M A) (k : A -> M B) : M B :=
  fun db =>
    let o := m db in
    match out_res o with
    | Ok a =>
        let o' := k a (out_db o) in
        mkOut (out_db o') (out_events o ++ out_events o') (out_res o')
    | Throw e => mkOut (out_db o) (out_events o) (Throw e)
    end.

Definition lift {A} (r : Res A) : M A := fun db => mkOut db [] r.

Definition emit (ev : Event) : M unit := fun db => mkOut db [ev] (Ok tt).

(** [try { m } catch (e) { h e }] *)
Definition try_catch {A} (m : M A) (h : JsError -> M A) : M A :=
  fun db =>
    let o := m db in
    match out_res o with
    | Ok a => o
    | Throw e =>
        let o' := h e (out_db o) in
        mkOut (out_db o') (out_events o ++ out_events o') (out_res o')
    end.

(** [try { m } finally { f }]: [f] runs on both paths; when [f] throws, its
    error replaces the outcome of [m]. *)
Definition try_finally {A} (m : M A) (f : M unit) : M A :=
  fun db =>
    let o := m db in
    let o' := f (out_db o) in
    mkOut (out_db o') (out_events o ++ out_events o')
          (match out_res o' with
           | Ok _ => out_res o
           | Throw e => Throw e
           end).

(** [runs m db db' evs r]: started in [db], [m] leaves [db'], makes the
    calls [evs] and ends in [r]. *)
Definition runs {A} (m : M A) (db db' : DB) (evs : list Event)
           (r : Res A) : Prop :=
  m db = mkOut db' evs r.

End Effects.

Declare Scope js_scope.
Delimit Scope js_scope with js.
Notation "x <- m ;; k" := (bind m (fun x => k))
  (at level 61, m at next level, right associativity) : js_scope.
Notation "m ;;; k" := (bind m (fun _ => k))
  (at level 61, right associativity) : js_scope.
Open Scope js_scope.

(* ================================================================== *)
(** * The MySQL node: [src/nodes/mysql.node.js] *)
(* ================================================================== *)

Section Node.

Context {DB : Type} `{Driver DB} `{Engine}.

(** ** Driver and logger calls *)

(** [await pool.execute(sql, params)] *)
Definition pool_execute (sql : JsVal) (params : list JsVal)
  : M (DB:=DB) (JsVal * JsVal) :=
  fun db =>
    let (db', r) := drv_execute db sql params in
    mkOut db' [EvExecute sql params] r.

(** [await pool.end()], [await connection.end()] *)
Definition driver_end : M (DB:=DB) unit :=
  fun db => let (db', r) := drv_end db in mkOut db' [EvEnd] r.

(** [mysql.createPool(config)]: no connection is made yet. *)
Definition createPool (config : Obj) : M (DB:=DB) unit :=
  emit (EvCreatePool config).

(** [await mysql.createConnection(config)] *)
Definition createConnection (config : Obj) : M (DB:=DB) unit :=
  fun db =>
    let (db', r) := drv_connect db config in
    mkOut db' [EvCreateConnection config] r.

Definition logger (level msg : string) (data : LogData) : M (DB:=DB) unit :=
  emit (EvLog level msg data).

(** ** Parameter marshaling *)

(** [s.split(",").map((p) => p.trim())]; [name] is the variable the code
    calls [split] on. *)
Definition split_params (name : string) (v : JsVal) : Res (list JsVal) :=
  match v with
  | JStr s => Ok (map (fun p => JStr (trim p)) (split_comma s))
  | _ => Throw (TypeError (name ++ ".split is not a function"))
  end.

(** [if (v) { queryParams = v.split(",").map(...) }] from [queryParams = []] *)
Definition marshal_params (name : string) (v : JsVal) : Res (list JsVal) :=
  if truthy v then split_params name v else Ok [].

(** ** Output records *)

(** [{ json: { ...item.json, k1: v1, ..., kn: vn } }] *)
Definition record (item : Item) (fields : Obj) : Item :=
  {| json := JObj (obj_assign (spread (json item)) fields) |}.

(** ** Statement construction *)

(** Lines 338-363: statement text and parameters of a Select. *)
Definition select_statement (h : Host) : Res (string * list JsVal) :=
  let table := getNodeParameter h "table" in
  let columns := js_or (getNodeParameter h "columns") (JStr "*") in
  let where_ := getNodeParameter h "where" in
  let whereParamsStr := getNodeParameter h "whereParams" in
  let returnAll := getNodeParameter h "returnAll" in
  let limit := if truthy returnAll then JNull else getNodeParameter h "limit" in
  let orderBy := getNodeParameter h "orderBy" in
  let q0 := "SELECT " ++ to_string columns ++ " FROM `" ++ to_string table ++ "`" in
  let tail (q : string) : string :=
    let q1 := if truthy orderBy then q ++ " ORDER BY " ++ to_string orderBy else q in
    if truthy limit then q1 ++ " LIMIT " ++ to_string limit else q1 in
  if truthy where_ then
    match marshal_params "whereParamsStr" whereParamsStr with
    | Ok params => Ok (tail (q0 ++ " WHERE " ++ to_string where_), params)
    | Throw e => Throw e
    end
  else Ok (tail q0, []).

(** Lines 383-389 and 449-455: the [data] parameter as an object. *)
Definition parse_data (dataStr : JsVal) : Res JsVal :=
  match dataStr with
  | JStr s =>
      match JSON_parse s with
      | Ok d => Ok d
      | Throw e => Throw (Error ("Invalid JSON data: " ++ e_message e))
      end
  | _ => Ok dataStr
  end.

(** Lines 391-398: statement text and parameters of an Insert. *)
Definition insert_statement (table data : JsVal) : Res (string * list JsVal) :=
  match object_keys data, object_values data with
  | Ok columns, Ok values =>
      let placeholders := join ", " (map (fun _ => "?") values) in
      Ok ("INSERT INTO `" ++ to_string table ++ "` (`" ++ join "`, `" columns
          ++ "`) VALUES (" ++ placeholders ++ ")", values)
  | Throw e, _ => Throw e
  | _, Throw e => Throw e
  end.

(** Lines 457-472: statement text and parameters of an Update. *)
Definition update_statement (table data where_ whereParamsStr : JsVal)
  : Res (string * list JsVal) :=
  match object_keys data, object_values data with
  | Ok columns, Ok values =>
      let setClause := join ", " (map (fun col => "`" ++ col ++ "` = ?") columns) in
      match marshal_params "whereParamsStr" whereParamsStr with
      | Ok whereParams =>
          Ok ("UPDATE `" ++ to_string table ++ "` SET " ++ setClause
              ++ " WHERE " ++ to_string where_, (values ++ whereParams)%list)
      | Throw e => Throw e
      end
  | Throw e, _ => Throw e
  | _, Throw e => Throw e
  end.

(** Lines 515-519: statement text and parameters of a Delete. *)
Definition delete_statement (table where_ whereParamsStr : JsVal)
  : Res (string * list JsVal) :=
  match marshal_params "whereParamsStr" whereParamsStr with
  | Ok params =>
      Ok ("DELETE FROM `" ++ to_string table ++ "` WHERE " ++ to_string where_,
          params)
  | Throw e => Throw e
  end.

(** ** Result shaping *)

(** [(f) => ({ name: f.name, type: f.type, table: f.table })] *)
Definition field_meta (f : JsVal) : Res JsVal :=
  match get_prop f "name", get_prop f "type", get_prop f "table" with
  | Ok n, Ok t, Ok tb => Ok (JObj [("name", n); ("type", t); ("table", tb)])
  | Throw e, _, _ => Throw e
  | _, Throw e, _ => Throw e
  | _, _, Throw e => Throw e
  end.

Fixpoint map_res {A B} (f : A -> Res B) (l : list A) : Res (list B) :=
  match l with
  | [] => Ok []
  | x :: rest =>
      match f x with
      | Ok y => match map_res f rest with
                | Ok ys => Ok (y :: ys)
                | Throw e => Throw e
                end
      | Throw e => Throw e
      end
  end.

(** [fields?.map(...)] *)
Definition fields_meta (fields : JsVal) : Res JsVal :=
  match fields with
  | JUndefined | JNull => Ok JUndefined
  | JArr l =>
      match map_res field_meta l with
      | Ok ms => Ok (JArr ms)
      | Throw e => Throw e
      end
  | _ => Throw (TypeError "fields?.map is not a function")
  end.

(** ** The five operations (the cases of the [switch], lines 310-531)

    Each case ends with [results.push({ json: { ...item.json, k1: v1, ... } })].
    A case is modelled by the properties [k1: v1, ...] it computes; the
    push that merges them into the item is [record], in [handle_item]. *)

Definition op_executeQuery (h : Host) : M (DB:=DB) Obj :=
  let queryText := getNodeParameter h "query" in
  let paramsStr := getNodeParameter h "queryParams" in
  queryParams <- lift (marshal_params "paramsStr" paramsStr) ;;
  rf <- pool_execute queryText queryParams ;;
  let rows := fst rf in
  let fields := snd rf in
  affectedRows <- lift (get_prop rows "affectedRows") ;;
  insertId <- lift (get_prop rows "insertId") ;;
  meta <- lift (fields_meta fields) ;;
  ret [("rows", if is_array rows then rows else JArr [rows]);
       ("rowCount", match rows with
                    | JArr l => JNum (Z.of_nat (List.length l))
                    | _ => JNum 1
                    end);
       ("affectedRows", affectedRows);
       ("insertId", insertId);
       ("fields", meta)].

Definition op_select (h : Host) : M (DB:=DB) Obj :=
  st <- lift (select_statement h) ;;
  rf <- pool_execute (JStr (fst st)) (snd st) ;;
  let rows := fst rf in
  len <- lift (get_prop rows "length") ;;
  ret [("rows", rows); ("rowCount", len)].

(** Lines 408-423: the row read back after an Insert. *)
Definition fetch_inserted (table returnFields insertId : JsVal)
           (insertedRow : Obj) : M (DB:=DB) Obj :=
  if (negb (strict_eq_str returnFields "*") || truthy insertId)%bool then
    try_catch
      (rf <- pool_execute
               (JStr ("SELECT " ++ to_string returnFields ++ " FROM `"
                      ++ to_string table ++ "` WHERE id = ?"))
               [insertId] ;;
       let rows := fst rf in
       if truthy rows then
         len <- lift (get_prop rows "length") ;;
         if gt_zero len then
           row0 <- lift (get_prop rows "0") ;;
           ret (obj_assign (spread (JObj insertedRow)) (own_props row0))
         else ret insertedRow
       else ret insertedRow)
      (fun selectError =>
         logger "warn" "Could not fetch inserted row" (LErr selectError) ;;;
         ret insertedRow)
  else ret insertedRow.

Definition op_insert (h : Host) : M (DB:=DB) Obj :=
  let table := getNodeParameter h "table" in
  let dataStr := getNodeParameter h "data" in
  let returnFields := js_or (getNodeParameter h "returnFields") (JStr "*") in
  data <- lift (parse_data dataStr) ;;
  st <- lift (insert_statement table data) ;;
  rf <- pool_execute (JStr (fst st)) (snd st) ;;
  let insertResult := fst rf in
  insertId <- lift (get_prop insertResult "insertId") ;;
  affectedRows <- lift (get_prop insertResult "affectedRows") ;;
  insertedRow <- fetch_inserted table returnFields insertId
                   [("insertId", insertId); ("affectedRows", affectedRows)] ;;
  ret [("inserted", JObj insertedRow); ("rowCount", affectedRows)].

(** Lines 476-491: the rows read back after an Update. *)
Definition fetch_updated (table returnFields where_ whereParamsStr : JsVal)
           (affectedRows : JsVal) : M (DB:=DB) JsVal :=
  if (truthy where_ && gt_zero affectedRows)%bool then
    try_catch
      (let selectQuery := "SELECT " ++ to_string returnFields ++ " FROM `"
                          ++ to_string table ++ "` WHERE " ++ to_string where_ in
       selectParams <- lift (marshal_params "whereParamsStr" whereParamsStr) ;;
       rf <- pool_execute (JStr selectQuery) selectParams ;;
       ret (fst rf))
      (fun selectError =>
         logger "warn" "Could not fetch updated rows" (LErr selectError) ;;;
         ret (JArr []))
  else ret (JArr []).

Definition update_where_required : string :=
  "WHERE clause is required for UPDATE operation to prevent accidental updates".

Definition op_update (h : Host) : M (DB:=DB) Obj :=
  let table := getNodeParameter h "table" in
  let dataStr := getNodeParameter h "data" in
  let where_ := getNodeParameter h "where" in
  let whereParamsStr := getNodeParameter h "whereParams" in
  let returnFields := js_or (getNodeParameter h "returnFields") (JStr "*") in
  if negb (truthy where_) then throw (Error update_where_required)
  else
    data <- lift (parse_data dataStr) ;;
    st <- lift (update_statement table data where_ whereParamsStr) ;;
    rf <- pool_execute (JStr (fst st)) (snd st) ;;
    let updateResult := fst rf in
    affectedRows <- lift (get_prop updateResult "affectedRows") ;;
    updatedRows <- fetch_updated table returnFields where_ whereParamsStr
                     affectedRows ;;
    changedRows <- lift (get_prop updateResult "changedRows") ;;
    ret [("updated", updatedRows);
         ("rowCount", affectedRows);
         ("changedRows", changedRows)].

Definition delete_where_required : string :=
  "WHERE clause is required for DELETE operation to prevent accidental deletion".

Definition op_delete (h : Host) : M (DB:=DB) Obj :=
  let table := getNodeParameter h "table" in
  let where_ := getNodeParameter h "where" in
  let whereParamsStr := getNodeParameter h "whereParams" in
  if negb (truthy where_) then throw (Error delete_where_required)
  else
    st <- lift (delete_statement table where_ whereParamsStr) ;;
    rf <- pool_execute (JStr (fst st)) (snd st) ;;
    let deleteResult := fst rf in
    affectedRows <- lift (get_prop deleteResult "affectedRows") ;;
    ret [("deleted", JBool true); ("rowCount", affectedRows)].

(** [switch (operation)], lines 309-535 *)
Definition process_item (h : Host) (operation : JsVal) : M (DB:=DB) Obj :=
  if strict_eq_str operation "executeQuery" then op_executeQuery h
  else if strict_eq_str operation "select" then op_select h
  else if strict_eq_str operation "insert" then op_insert h
  else if strict_eq_str operation "update" then op_update h
  else if strict_eq_str operation "delete" then op_delete h
  else throw (Error ("Unknown operation: " ++ to_string operation)).

(** ** Per-item error policy (lines 536-553) *)

(** [error.toString()] *)
Definition error_to_string (e : JsError) : string :=
  if str_empty (e_name e) then e_message e
  else if str_empty (e_message e) then e_name e
  else e_name e ++ ": " ++ e_message e.

(** The properties the [catch] adds to the item's own. *)
Definition error_fields (error : JsError) : Obj :=
  [("error", JBool true);
   ("errorMessage", JStr (e_message error));
   ("errorCode", e_code error);
   ("errorDetails", JStr (error_to_string error))].

Definition handle_item (h : Host) (continueOnFail operation : JsVal)
           (item : Item) : M (DB:=DB) Item :=
  try_catch
    (fields <- process_item h operation ;; ret (record item fields))
    (fun error =>
       if truthy continueOnFail then ret (record item (error_fields error))
       else throw error).

(** [for (const item of itemsToProcess) { ... results.push(...) }] *)
Fixpoint process_items (h : Host) (continueOnFail operation : JsVal)
         (items : list Item) : M (DB:=DB) (list Item) :=
  match items with
  | [] => ret []
  | item :: rest =>
      r <- handle_item h continueOnFail operation item ;;
      rs <- process_items h continueOnFail operation rest ;;
      ret (r :: rs)
  end.

(** ** Credential resolution (lines 255-284) *)

Definition credentials_required : string :=
  "MySQL credentials are required. Please select credentials in the Authentication field.".

(** [ssl ? { rejectUnauthorized: false } : false] *)
Definition ssl_option (ssl : JsVal) : JsVal :=
  if truthy ssl then JObj [("rejectUnauthorized", JBool false)] else JBool false.

(** The connection parameters read from the credentials; the timeout comes
    from the settings first, then the credentials, then 10000. *)
Definition connection_params (h : Host) (credentials : JsVal) : Obj :=
  [("host", get_prop_opt credentials "host");
   ("port", js_or (get_prop_opt credentials "port") (JNum 3306));
   ("database", get_prop_opt credentials "database");
   ("user", get_prop_opt credentials "user");
   ("password", get_prop_opt credentials "password");
   ("ssl", js_or (get_prop_opt credentials "ssl") (JBool false));
   ("connectionTimeout",
    js_coalesce (get_prop_opt (settings h) "connectionTimeout")
      (js_coalesce (get_prop_opt credentials "connectionTimeout") (JNum 10000)))].

Definition param (p : Obj) (k : string) : JsVal :=
  match obj_get k p with Some v => v | None => JUndefined end.

Definition resolve_credentials (h : Host) : M (DB:=DB) Obj :=
  try_catch
    (credentials <- lift (getCredentials h "mysqlDb") ;;
     if (negb (truthy credentials)
         || negb (truthy (get_prop_opt credentials "host")))%bool
     then throw (Error credentials_required)
     else
       let p := connection_params h credentials in
       logger "info" "Using MySQL credentials from authentication"
         (LVal (JObj [("connectionTimeout", param p "connectionTimeout");
                      ("fromSettings",
                       JBool (truthy (get_prop_opt (settings h)
                                        "connectionTimeout")))])) ;;;
       ret p)
    (fun error =>
       throw (Error ("Failed to get credentials: " ++ e_message error))).

(** The object given to [mysql.createPool] (lines 289-300). *)
Definition pool_config (p : Obj) : Obj :=
  [("host", param p "host");
   ("port", param p "port");
   ("database", param p "database");
   ("user", param p "user");
   ("password", param p "password");
   ("ssl", ssl_option (param p "ssl"));
   ("waitForConnections", JBool true);
   ("connectionLimit", JNum 10);
   ("queueLimit", JNum 0);
   ("connectTimeout", param p "connectionTimeout")].

(** ** [execute] (lines 239-561) *)

(** [inputData.main?.[0] || []] *)
Definition input_items (inputData : InputData) : list Item :=
  match main inputData with
  | Some (items :: _) => items
  | _ => []
  end.

(** [items.length > 0 ? items : [{ json: {} }]] *)
Definition itemsToProcess (inputData : InputData) : list Item :=
  match input_items inputData with
  | [] => [ {| json := JObj [] |} ]
  | items => items
  end.

(** [this.settings?.continueOnFail ?? false] *)
Definition continueOnFail (h : Host) : JsVal :=
  js_coalesce (get_prop_opt (settings h) "continueOnFail") (JBool false).

(** The value is the [results] array of the returned [[{ main: results }]]. *)
Definition execute (h : Host) (inputData : InputData) : M (DB:=DB) (list Item) :=
  logger "info"
    ("[MySQL] continueOnFail setting: " ++ to_string (continueOnFail h)) LNone ;;;
  logger "info" "[MySQL] Settings object:" (LVal (settings h)) ;;;
  p <- resolve_credentials h ;;
  let operation := getNodeParameter h "operation" in
  createPool (pool_config p) ;;;
  try_finally
    (process_items h (continueOnFail h) operation (itemsToProcess inputData))
    driver_end.

End Node.

(* ================================================================== *)
(** * The table lister: [loadOptions.getTables] *)
(* ================================================================== *)

(** An entry of the dropdown. *)
Record TableOption : Type := {
  opt_name : JsVal;
  opt_value : JsVal;
  opt_description : JsVal
}.

Definition nl : string := String (ascii_of_nat 10) EmptyString.

(** The template literal of lines 623-629, line by line. *)
Definition tables_query : string :=
  nl
  ++ "          SELECT table_name "
  ++ nl
  ++ "          FROM information_schema.tables "
  ++ nl
  ++ "          WHERE table_schema = ? "
  ++ nl
  ++ "          AND table_type = 'BASE TABLE'"
  ++ nl
  ++ "          ORDER BY table_name"
  ++ nl
  ++ "        ".

Section TableLister.

Context {DB : Type} `{Driver DB}.

Definition no_credentials_option : TableOption := {|
  opt_name := JStr "No credentials selected";
  opt_value := JStr EmptyString;
  opt_description := JStr "Please select MySQL credentials first"
|}.

(** The entry returned when [getCredentials] throws. *)
Definition credentials_error_option (error : JsError) : TableOption := {|
  opt_name := JStr "Error: Credentials required";
  opt_value := JStr EmptyString;
  opt_description := JStr (e_message error)
|}.

(** The entry returned when the tables cannot be loaded. *)
Definition load_error_option (error : JsError) : TableOption := {|
  opt_name := JStr "Error loading tables - check credentials";
  opt_value := JStr EmptyString;
  opt_description := JStr (e_message error)
|}.

(** [row.table_name || row.TABLE_NAME] *)
Definition table_name_of (row : JsVal) : Res JsVal :=
  match get_prop row "table_name", get_prop row "TABLE_NAME" with
  | Ok lower, Ok upper => Ok (js_or lower upper)
  | Throw e, _ => Throw e
  | _, Throw e => Throw e
  end.

(** The arrow function of lines 636-640. *)
Definition table_option (row : JsVal) : Res TableOption :=
  match table_name_of row with
  | Ok name =>
      Ok {| opt_name := name;
            opt_value := name;
            opt_description := JStr ("Table: " ++ to_string name) |}
  | Throw e => Throw e
  end.

(** [rows.map(...)] *)
Definition table_options (rows : JsVal) : Res (list TableOption) :=
  match rows with
  | JArr l => map_res table_option l
  | JUndefined | JNull => Throw (cannot_read rows "map")
  | _ => Throw (TypeError "rows.map is not a function")
  end.

(** The object given to [mysql.createConnection] (lines 611-619). *)
Definition lister_config (p : Obj) : Obj :=
  [("host", param p "host");
   ("port", param p "port");
   ("database", param p "database");
   ("user", param p "user");
   ("password", param p "password");
   ("ssl", ssl_option (param p "ssl"));
   ("connectTimeout", param p "connectionTimeout")].

(** Lines 574-606: the connection parameters, or the entries returned at
    once. *)
Definition lister_credentials (h : Host)
  : M (DB:=DB) (list TableOption + Obj) :=
  try_catch
    (credentials <- lift (getCredentials h "mysqlDb") ;;
     if (negb (truthy credentials)
         || negb (truthy (get_prop_opt credentials "host")))%bool
     then ret (inl [no_credentials_option])
     else ret (inr (connection_params h credentials)))
    (fun error => ret (inl [credentials_error_option error])).

(** Lines 622-640: what is done with the connection once it is there. *)
Definition list_tables (p : Obj) : M (DB:=DB) (list TableOption) :=
  rf <- pool_execute (JStr tables_query) [param p "database"] ;;
  driver_end ;;;
  lift (table_options (fst rf)).

(** Lines 645-654: the end of the [catch]. *)
Definition load_failed (error : JsError) : M (DB:=DB) (list TableOption) :=
  logger "error" "Failed to load tables" (LErr error) ;;;
  ret [load_error_option error].

(** [getTables()] (lines 570-656).  In the [catch], [connection] is set
    exactly when [createConnection] resolved. *)
Definition getTables (h : Host) : M (DB:=DB) (list TableOption) :=
  resolved <- lister_credentials h ;;
  match resolved with
  | inl options => ret options
  | inr p =>
      connected <- try_catch (createConnection (lister_config p) ;;; ret None)
                     (fun error => ret (Some error)) ;;
      match connected with
      | Some error => load_failed error
      | None =>
          try_catch (list_tables p)
            (fun error => driver_end ;;; load_failed error)
      end
  end.

End TableLister.

(* ================================================================== *)
(** * The credential test: [src/credentials/mysqlDb.credentials.js] *)
(* ================================================================== *)

Record TestResult : Type := { success : bool; message : string }.

Section Credentials.

Context {DB : Type} `{Driver DB}.

Definition fields_required : string :=
  "Host, database, user, and password are required".

Definition authentication_failed : string :=
  "Authentication failed. Invalid username or password.".

(** [data.port || 3306] *)
Definition port_or_default (data : JsVal) : JsVal :=
  js_or (get_prop_opt data "port") (JNum 3306).

(** [`Connection failed: ${error.message || "Unknown error"}`] *)
Definition connection_failed (error : JsError) : string :=
  "Connection failed: "
  ++ (if str_empty (e_message error) then "Unknown error" else e_message error).

Definition failure (msg : string) : TestResult :=
  {| success := false; message := msg |}.

(** The outer [catch] of [test] (lines 126-186). *)
Definition classify_error (data : JsVal) (error : JsError) : TestResult :=
  let code := e_code error in
  let host := to_string (get_prop_opt data "host") in
  let port := to_string (port_or_default data) in
  if strict_eq_str code "ECONNREFUSED" then
    failure ("Cannot connect to database server at " ++ host ++ ":" ++ port
             ++ ". Connection refused.")
  else if strict_eq_str code "ENOTFOUND" then
    failure ("Cannot resolve host: " ++ host ++ ". Please check the hostname.")
  else if strict_eq_str code "ETIMEDOUT" then
    failure ("Connection timeout to " ++ host ++ ":" ++ port
             ++ ". Please check firewall and network settings.")
  else if strict_eq_str code "ER_ACCESS_DENIED_ERROR" then
    failure authentication_failed
  else if strict_eq_str code "ER_BAD_DB_ERROR" then
    failure ("Database " ++ String (ascii_of_nat 34) EmptyString
             ++ to_string (get_prop_opt data "database")
             ++ String (ascii_of_nat 34) EmptyString ++ " does not exist.")
  else if strict_eq_str code "ER_DBACCESS_DENIED_ERROR" then
    failure "Authorization failed. User does not have access to this database."
  else if strict_eq_str code "PROTOCOL_CONNECTION_LOST" then
    failure "Connection lost to MySQL server. Please check server status."
  else if strict_eq_str code "ER_CON_COUNT_ERROR" then
    failure "Too many connections to MySQL server. Try again later."
  else if strict_eq_str code "ER_HOST_IS_BLOCKED" then
    failure "Host is blocked due to many connection errors. Contact your database administrator."
  else failure (connection_failed error).

(** The object given to [mysql.createConnection] (lines 88-96). *)
Definition test_config (data : JsVal) : Obj :=
  [("host", get_prop_opt data "host");
   ("port", port_or_default data);
   ("database", get_prop_opt data "database");
   ("user", get_prop_opt data "user");
   ("password", get_prop_opt data "password");
   ("ssl", ssl_option (get_prop_opt data "ssl"));
   ("connectTimeout",
    js_or (get_prop_opt data "connectionTimeout") (JNum 10000))].

Definition liveness_query : JsVal :=
  JStr "SELECT NOW() as current_time, VERSION() as version".

(** [!data.host || !data.database || !data.user || !data.password] *)
Definition missing_required (data : JsVal) : bool :=
  (negb (truthy (get_prop_opt data "host"))
   || negb (truthy (get_prop_opt data "database"))
   || negb (truthy (get_prop_opt data "user"))
   || negb (truthy (get_prop_opt data "password")))%bool.

(** The part of [test] that talks to the driver (lines 85-125); what it
    throws is what the outer [catch] classifies.  The liveness query is
    executed without a parameter list. *)
Definition test_connection (data : JsVal) : M (DB:=DB) TestResult :=
  createConnection (test_config data) ;;;
  try_catch
    (rf <- pool_execute liveness_query [] ;;
     driver_end ;;;
     let rows := fst rf in
     if (truthy rows && gt_zero (get_prop_opt rows "length"))%bool then
       row0 <- lift (get_prop rows "0") ;;
       version <- lift (get_prop row0 "version") ;;
       ret {| success := true;
              message := "Connected successfully to MySQL " ++ to_string version
                         ++ " at " ++ to_string (get_prop_opt data "host")
                         ++ ":" ++ to_string (port_or_default data)
                         ++ "/" ++ to_string (get_prop_opt data "database") |}
     else
       driver_end ;;;
       ret {| success := true; message := "Connection successful" |})
    (fun queryError => driver_end ;;; throw queryError).

(** [test(data)] (lines 75-187); reading [data.host] throws when [data] is
    null or undefined. *)
Definition test (data : JsVal) : M (DB:=DB) TestResult :=
  _ <- lift (get_prop data "host") ;;
  if missing_required data then ret (failure fields_required)
  else
    try_catch (test_connection data)
      (fun error => ret (classify_error data error)).

End Credentials.

(* ================================================================== *)
(** * Reference instances of the collaborators *)
(* ================================================================== *)

(** A reader for JSON documents whose numbers are integers and whose strings
    use the two-character escapes only; it instantiates [Engine] in the
    examples.  The theorems below hold for every [Engine]. *)
Module RefJson.

Definition quote : ascii := ascii_of_nat 34.
Definition backslash : ascii := ascii_of_nat 92.

Definition syntax_error : JsError :=
  mkError "SyntaxError" "Unexpected token in JSON" JUndefined.

Definition is_json_space (c : ascii) : bool :=
  let n := nat_of_ascii c in
  (Nat.eqb n 9 || Nat.eqb n 10 || Nat.eqb n 13 || Nat.eqb n 32)%bool.

Fixpoint skip_ws (s : string) : string :=
  match s with
  | EmptyString => EmptyString
  | String c rest => if is_json_space c then skip_ws rest else s
  end.

Definition unescape (c : ascii) : option ascii :=
  if Ascii.eqb c quote then Some quote
  else if Ascii.eqb c backslash then Some backslash
  else if Ascii.eqb c "/"%char then Some "/"%char
  else if Ascii.eqb c "n"%char then Some (ascii_of_nat 10)
  else if Ascii.eqb c "t"%char then Some (ascii_of_nat 9)
  else if Ascii.eqb c "r"%char then Some (ascii_of_nat 13)
  else if Ascii.eqb c "b"%char then Some (ascii_of_nat 8)
  else if Ascii.eqb c "f"%char then Some (ascii_of_nat 12)
  else None.

(** The characters up to the closing quote, and what follows it. *)
Fixpoint string_body (acc : string) (s : string) : option (string * string) :=
  match s with
  | EmptyString => None
  | String c rest =>
      if Ascii.eqb c quote then Some (rev_string EmptyString acc, rest)
      else if Ascii.eqb c backslash then
        match rest with
        | String e rest' =>
            match unescape e with
            | Some x => string_body (String x acc) rest'
            | None => None
            end
        | EmptyString => None
        end
      else if (nat_of_ascii c <? 32)%nat then None
      else string_body (String c acc) rest
  end.

Fixpoint take_digits (acc : string) (s : string) : string * string :=
  match s with
  | String c rest =>
      match digit_of c with
      | Some _ => take_digits (String c acc) rest
      | None => (rev_string EmptyString acc, s)
      end
  | EmptyString => (rev_string EmptyString acc, s)
  end.

(** An integer numeral: no leading zero, no fraction, no exponent. *)
Definition number (s : string) : option (Z * string) :=
  let (neg, s1) := match s with
                   | String c rest =>
                       if Ascii.eqb c "-"%char then (true, rest) else (false, s)
                   | EmptyString => (false, s)
                   end in
  let (ds, rest) := take_digits EmptyString s1 in
  match ds, digits_value 0%N ds with
  | String d more, Some n =>
      if (Ascii.eqb d "0"%char && negb (str_empty more))%bool then None
      else match rest with
           | String c _ =>
               if (Ascii.eqb c "."%char || Ascii.eqb c "e"%char
                   || Ascii.eqb c "E"%char)%bool then None
               else Some (if neg then - Z.of_N n else Z.of_N n, rest)
           | EmptyString => Some (if neg then - Z.of_N n else Z.of_N n, rest)
           end
  | _, _ => None
  end.

Definition literal (word : string) (v : JsVal) (s : string)
  : option (JsVal * string) :=
  if String.prefix word s
  then Some (v, substring (String.length word)
                          (String.length s - String.length word) s)
  else None.

Fixpoint value (fuel : nat) (s : string) : option (JsVal * string) :=
  match fuel with
  | O => None
  | S f =>
      match skip_ws s with
      | EmptyString => None
      | String c rest =>
          if Ascii.eqb c "{"%char then
            match skip_ws rest with
            | String c' rest' =>
                if Ascii.eqb c' "}"%char then Some (JObj [], rest')
                else members f [] rest
            | EmptyString => None
            end
          else if Ascii.eqb c "["%char then
            match skip_ws rest with
            | String c' rest' =>
                if Ascii.eqb c' "]"%char then Some (JArr [], rest')
                else elements f [] rest
            | EmptyString => None
            end
          else if Ascii.eqb c quote then
            match string_body EmptyString rest with
            | Some (str, rest') => Some (JStr str, rest')
            | None => None
            end
          else if Ascii.eqb c "t"%char then literal "true" (JBool true) (String c rest)
          else if Ascii.eqb c "f"%char then literal "false" (JBool false) (String c rest)
          else if Ascii.eqb c "n"%char then literal "null" JNull (String c rest)
          else match number (String c rest) with
               | Some (n, rest') => Some (JNum n, rest')
               | None => None
               end
      end
  end

with members (fuel : nat) (acc : Obj) (s : string) : option (JsVal * string) :=
  match fuel with
  | O => None
  | S f =>
      match skip_ws s with
      | String c rest =>
          if Ascii.eqb c quote then
            match string_body EmptyString rest with
            | Some (k, r1) =>
                match skip_ws r1 with
                | String colon r2 =>
                    if Ascii.eqb colon ":"%char then
                      match value f r2 with
                      | Some (v, r3) =>
                          match skip_ws r3 with
                          | String sep r4 =>
                              if Ascii.eqb sep ","%char
                              then members f (obj_set k v acc) r4
                              else if Ascii.eqb sep "}"%char
                              then Some (JObj (obj_set k v acc), r4)
                              else None
                          | EmptyString => None
                          end
                      | None => None
                      end
                    else None
                | EmptyString => None
                end
            | None => None
            end
          else None
      | EmptyString => None
      end
  end

with elements (fuel : nat) (acc : list JsVal) (s : string)
  : option (JsVal * string) :=
  match fuel with
  | O => None
  | S f =>
      match value f s with
      | Some (v, r1) =>
          match skip_ws r1 with
          | String sep r2 =>
              if Ascii.eqb sep ","%char then elements f (acc ++ [v])%list r2
              else if Ascii.eqb sep "]"%char then Some (JArr (acc ++ [v])%list, r2)
              else None
          | EmptyString => None
          end
      | None => None
      end
  end.

Definition parse (s : string) : Res JsVal :=
  match value (S (String.length s)) s with
  | Some (v, rest) =>
      if str_empty (skip_ws rest) then Ok v else Throw syntax_error
  | None => Throw syntax_error
  end.

#[export] Instance engine : Engine := {| JSON_parse := parse |}.

End RefJson.

(** A driver that answers from a script.  Its state is the number of
    statements executed so far. *)
Record Script : Type := {
  on_connect : Res unit;
  on_execute : nat -> JsVal -> list JsVal -> Res (JsVal * JsVal);
  on_end : Res unit
}.

Definition scripted (s : Script) : Driver nat := {|
  drv_connect := fun n _ => (n, on_connect s);
  drv_execute := fun n sql params => (S n, on_execute s n sql params);
  drv_end := fun n => (n, on_end s)
|}.

(* ================================================================== *)
(** * Vocabulary of the statements *)
(* ================================================================== *)

(** The properties each case of the [switch] adds to the item's own. *)
Definition operation_fields (operation : JsVal) : list string :=
  if strict_eq_str operation "executeQuery"
  then ["rows"; "rowCount"; "affectedRows"; "insertId"; "fields"]
  else if strict_eq_str operation "select" then ["rows"; "rowCount"]
  else if strict_eq_str operation "insert" then ["inserted"; "rowCount"]
  else if strict_eq_str operation "update"
  then ["updated"; "rowCount"; "changedRows"]
  else if strict_eq_str operation "delete" then ["deleted"; "rowCount"]
  else [].

(** The properties the [catch] adds. *)
Definition error_keys : list string :=
  ["error"; "errorMessage"; "errorCode"; "errorDetails"].

(** [r.json[k]] of an output record. *)
Definition field_of (r : Item) (k : string) : option JsVal :=
  match json r with
  | JObj o => obj_get k o
  | _ => None
  end.

Definition res_map {A B} (f : A -> B) (r : Res A) : Res B :=
  match r with
  | Ok a => Ok (f a)
  | Throw e => Throw e
  end.

(** What the per-item [try]/[catch] makes of the outcome of the operation:
    its properties, the error's properties under continue-on-fail, or the
    error again. *)
Definition outcome_fields (cof : JsVal) (r : Res Obj) : Res Obj :=
  match r with
  | Ok fields => Ok fields
  | Throw e => if truthy cof then Ok (error_fields e) else Throw e
  end.


(** The message of the error an Update or a Delete without a where clause
    fails with. *)
Definition where_required (operation : JsVal) : string :=
  if strict_eq_str operation "update" then update_where_required
  else delete_where_required.

(** The pieces of a Select statement that has no where clause. *)
Definition select_base (h : Host) : string :=
  "SELECT " ++ to_string (js_or (getNodeParameter h "columns") (JStr "*"))
  ++ " FROM `" ++ to_string (getNodeParameter h "table") ++ "`".

Definition order_clause (h : Host) : string :=
  if truthy (getNodeParameter h "orderBy")
  then " ORDER BY " ++ to_string (getNodeParameter h "orderBy")
  else EmptyString.

Definition limit_clause (h : Host) : string :=
  if truthy (getNodeParameter h "returnAll") then EmptyString
  else if truthy (getNodeParameter h "limit")
       then " LIMIT " ++ to_string (getNodeParameter h "limit")
       else EmptyString.

(** ** Statements of the four table operations *)

Inductive Crud : Type := CSelect | CInsert | CUpdate | CDelete.

(** The value of the [operation] parameter. *)
Definition crud_name (c : Crud) : string :=
  match c with
  | CSelect => "select"
  | CInsert => "insert"
  | CUpdate => "update"
  | CDelete => "delete"
  end.

(** An identifier between backticks. *)
Definition quoted (s : string) : string := "`" ++ s ++ "`".

Definition where_clause (h : Host) : string :=
  if truthy (getNodeParameter h "where")
  then " WHERE " ++ to_string (getNodeParameter h "where")
  else EmptyString.

(** [whereParams], marshaled. *)
Definition where_params (h : Host) : Res (list JsVal) :=
  marshal_params "whereParamsStr" (getNodeParameter h "whereParams").

Section Statements.

Context `{Engine}.

(** The statement and the parameters the operation gives to its first
    [pool.execute], or the error it throws before. *)
Definition statement_of (h : Host) (c : Crud) : Res (string * list JsVal) :=
  match c with
  | CSelect => select_statement h
  | CInsert =>
      match parse_data (getNodeParameter h "data") with
      | Ok data => insert_statement (getNodeParameter h "table") data
      | Throw e => Throw e
      end
  | CUpdate =>
      if negb (truthy (getNodeParameter h "where"))
      then Throw (Error update_where_required)
      else match parse_data (getNodeParameter h "data") with
           | Ok data =>
               update_statement (getNodeParameter h "table") data
                 (getNodeParameter h "where") (getNodeParameter h "whereParams")
           | Throw e => Throw e
           end
  | CDelete =>
      if negb (truthy (getNodeParameter h "where"))
      then Throw (Error delete_where_required)
      else delete_statement (getNodeParameter h "table")
             (getNodeParameter h "where") (getNodeParameter h "whereParams")
  end.

(** The column names of the [data] parameter. *)
Definition data_columns (h : Host) : Res (list string) :=
  match parse_data (getNodeParameter h "data") with
  | Ok data => object_keys data
  | Throw e => Throw e
  end.

(** The values of the [data] parameter. *)
Definition data_values (h : Host) : Res (list JsVal) :=
  match parse_data (getNodeParameter h "data") with
  | Ok data => object_values data
  | Throw e => Throw e
  end.

(** The text of a statement as a function of the identifiers and clauses of
    the request: table, column names, column list, where clause, order and
    limit.  Neither the data values nor the where parameters occur. *)
Definition statement_text (h : Host) (c : Crud) (columns : list string) : string :=
  let table := quoted (to_string (getNodeParameter h "table")) in
  match c with
  | CSelect =>
      "SELECT " ++ to_string (js_or (getNodeParameter h "columns") (JStr "*"))
      ++ " FROM " ++ table
      ++ where_clause h ++ order_clause h ++ limit_clause h
  | CInsert =>
      "INSERT INTO " ++ table ++ " (" ++ quoted (join "`, `" columns)
      ++ ") VALUES (" ++ join ", " (map (fun _ => "?") columns) ++ ")"
  | CUpdate =>
      "UPDATE " ++ table ++ " SET "
      ++ join ", " (map (fun col => quoted col ++ " = ?") columns)
      ++ " WHERE " ++ to_string (getNodeParameter h "where")
  | CDelete =>
      "DELETE FROM " ++ table ++ " WHERE "
      ++ to_string (getNodeParameter h "where")
  end.

(** The column names a statement mentions: those of [data] for an Insert
    and an Update. *)
Definition columns_of (h : Host) (c : Crud) : list string :=
  match c with
  | CInsert | CUpdate =>
      match data_columns h with Ok columns => columns | Throw _ => [] end
  | CSelect | CDelete => []
  end.

(** The data values of a request: those of [data] for an Insert and an
    Update. *)
Definition values_of (h : Host) (c : Crud) : list JsVal :=
  match c with
  | CInsert | CUpdate =>
      match data_values h with Ok values => values | Throw _ => [] end
  | CSelect | CDelete => []
  end.

(** The where parameters of a request; a Select without a where clause and
    an Insert have none. *)
Definition params_of (h : Host) (c : Crud) : list JsVal :=
  match c with
  | CInsert => []
  | CSelect =>
      if truthy (getNodeParameter h "where")
      then match where_params h with Ok ps => ps | Throw _ => [] end
      else []
  | CUpdate | CDelete =>
      match where_params h with Ok ps => ps | Throw _ => [] end
  end.

(** Two requests with the same identifiers and clauses: they agree on every
    parameter but [whereParams] and [data], and their [data] have the same
    column names. *)
Definition same_identifiers (h h' : Host) : Prop :=
  (forall k, k <> "whereParams" -> k <> "data" ->
             getNodeParameter h' k = getNodeParameter h k)
  /\ data_columns h' = data_columns h.

(** The Select limit is given to the driver as a parameter. *)
Definition limit_is_parameter (h : Host) : Prop :=
  forall q ps, select_statement h = Ok (q, ps) ->
               In (getNodeParameter h "limit") ps.

End Statements.

(** The statement that reads the inserted row back. *)
Definition insert_fetch_query (h : Host) : JsVal :=
  JStr ("SELECT "
        ++ to_string (js_or (getNodeParameter h "returnFields") (JStr "*"))
        ++ " FROM `" ++ to_string (getNodeParameter h "table")
        ++ "` WHERE id = ?").

(** The statement that reads the updated rows back. *)
Definition update_fetch_query (h : Host) : JsVal :=
  JStr ("SELECT "
        ++ to_string (js_or (getNodeParameter h "returnFields") (JStr "*"))
        ++ " FROM `" ++ to_string (getNodeParameter h "table")
        ++ "` WHERE " ++ to_string (getNodeParameter h "where")).

(** The message [execute] fails with when the credentials do not pass. *)
Definition resolution_error (h : Host) : string :=
  "Failed to get credentials: "
  ++ match getCredentials h "mysqlDb" with
     | Ok _ => credentials_required
     | Throw e => e_message e
     end.

(** What [execute] logs before it looks at the credentials. *)
Definition opening_events (h : Host) : list Event :=
  [EvLog "info"
     ("[MySQL] continueOnFail setting: " ++ to_string (continueOnFail h)) LNone;
   EvLog "info" "[MySQL] Settings object:" (LVal (settings h))].

(** What [execute] does from there until the first item, with credentials
    that pass. *)
Definition setup_events (h : Host) (credentials : JsVal) : list Event :=
  [EvLog "info" "Using MySQL credentials from authentication"
     (LVal (JObj [("connectionTimeout",
                   param (connection_params h credentials) "connectionTimeout");
                  ("fromSettings",
                   JBool (truthy (get_prop_opt (settings h)
                                    "connectionTimeout")))]));
   EvCreatePool (pool_config (connection_params h credentials))].

(** The credentials have a property [k] that is neither null nor undefined. *)
Definition has_field (credentials : JsVal) (k : string) : bool :=
  match credentials with
  | JObj o => match obj_get k o with
              | Some v => negb (nullish v)
              | None => false
              end
  | _ => false
  end.

(** ** Outcomes of a batch *)

Section Outcomes.

Context {DB : Type} `{Driver DB} `{Engine}.


End Outcomes.







(** The guard of [resolve_credentials] lets the credentials through: they
    were obtained, are not empty and have a host. *)
Definition credentials_selected (h : Host) : bool :=
  match getCredentials h "mysqlDb" with
  | Ok credentials =>
      (truthy credentials && truthy (get_prop_opt credentials "host"))%bool
  | Throw _ => false
  end.

(** ** Example invocations *)

Module Example.

Definition credentials : JsVal :=
  JObj [("host", JStr "localhost"); ("database", JStr "shop");
        ("user", JStr "app"); ("password", JStr "secret")].

(** A host with the given credentials, continue-on-fail setting and node
    parameters. *)
Definition host_with (creds : Res JsVal) (cof : bool) (params : Obj) : Host := {|
  settings := JObj [("continueOnFail", JBool cof)];
  getCredentials := fun _ => creds;
  getNodeParameter := fun name => param params name
|}.

Definition host (cof : bool) (params : Obj) : Host :=
  host_with (Ok credentials) cof params.

(** Credentials with a host and nothing else. *)
Definition host_only : JsVal := JObj [("host", JStr "localhost")].

(** Credentials without a host. *)
Definition no_host : JsVal :=
  JObj [("database", JStr "shop"); ("user", JStr "app");
        ("password", JStr "secret")].

Definition input (items : list Item) : InputData := {| main := Some [items] |}.

Definition no_such_table : JsError :=
  mkError "Error" "Table 'shop.t' doesn't exist" (JStr "ER_NO_SUCH_TABLE").

Definition access_denied : JsError :=
  mkError "Error" "Access denied for user 'app'@'localhost'"
          (JStr "ER_ACCESS_DENIED_ERROR").

(** Every statement returns an empty row set. *)
Definition healthy : Script := {|
  on_connect := Ok tt;
  on_execute := fun _ _ _ => Ok (JArr [], JArr []);
  on_end := Ok tt
|}.

(** The statement number [n] (from 0) is rejected, the others return an
    empty row set. *)
Definition failing_at (n : nat) : Script := {|
  on_connect := Ok tt;
  on_execute := fun i _ _ =>
    if Nat.eqb i n then Throw no_such_table else Ok (JArr [], JArr []);
  on_end := Ok tt
|}.

(** The text [{"a":1,"b":2}]. *)
Definition data_a1_b2 : string :=
  "{" ++ String RefJson.quote "a" ++ String RefJson.quote ":1,"
  ++ String RefJson.quote "b" ++ String RefJson.quote ":2}".

Definition insert_t : Obj :=
  [("operation", JStr "insert"); ("table", JStr "t");
   ("data", JStr data_a1_b2)].

Definition update_no_where : Obj :=
  [("operation", JStr "update"); ("table", JStr "t");
   ("data", JStr data_a1_b2); ("where", JStr EmptyString);
   ("whereParams", JStr "7")].

Definition select_no_where : Obj :=
  [("operation", JStr "select"); ("table", JStr "t");
   ("where", JStr EmptyString); ("whereParams", JStr "123, active");
   ("returnAll", JBool false); ("limit", JNum 50)].

(** The driver refuses the connection: access denied. *)
Definition denying : Script := {|
  on_connect := Throw access_denied;
  on_execute := fun _ _ _ => Ok (JArr [], JArr []);
  on_end := Ok tt
|}.

Definition update_by_id : Obj :=
  [("operation", JStr "update"); ("table", JStr "t");
   ("data", JStr data_a1_b2); ("where", JStr "id = ?");
   ("whereParams", JStr "7")].


Definition select_limit (n : Z) : Obj :=
  [("operation", JStr "select"); ("table", JStr "t");
   ("columns", JStr "id,name");
   ("returnAll", JBool false); ("limit", JNum n)].

(** Statements succeed, closing fails. *)
Definition pool_closed : JsError :=
  mkError "Error" "Pool is closed." JUndefined.

Definition end_fails : Script := {|
  on_connect := Ok tt;
  on_execute := fun _ _ _ => Ok (JArr [], JArr []);
  on_end := Throw pool_closed
|}.

(** A write header for every statement. *)
Definition header (affected insertId : Z) : JsVal :=
  JObj [("affectedRows", JNum affected); ("insertId", JNum insertId);
        ("changedRows", JNum affected)].

Definition writes (affected insertId : Z) : Script := {|
  on_connect := Ok tt;
  on_execute := fun _ _ _ => Ok (header affected insertId, JUndefined);
  on_end := Ok tt
|}.

(** A write header for the first statement, one row for the next. *)
Definition fetched_row : JsVal :=
  JObj [("id", JNum 5); ("a", JNum 1); ("b", JNum 2)].

Definition write_then_row : Script := {|
  on_connect := Ok tt;
  on_execute := fun i _ _ =>
    if Nat.eqb i 0 then Ok (header 1 5, JUndefined)
    else Ok (JArr [fetched_row], JArr []);
  on_end := Ok tt
|}.

(** One table under each spelling of the column name. *)
Definition two_tables : Script := {|
  on_connect := Ok tt;
  on_execute := fun _ _ _ =>
    Ok (JArr [JObj [("TABLE_NAME", JStr "orders")];
              JObj [("table_name", JStr "users")]], JUndefined);
  on_end := Ok tt
|}.

(** The driver refuses the connection with the given error. *)
Definition refusing (e : JsError) : Script := {|
  on_connect := Throw e;
  on_execute := fun _ _ _ => Ok (JArr [], JArr []);
  on_end := Ok tt
|}.

(** A host without a settings object. *)
Definition bare_host (params : Obj) : Host := {|
  settings := JUndefined;
  getCredentials := fun _ => Ok credentials;
  getNodeParameter := fun name => param params name
|}.

Definition insert_bad_json : Obj :=
  [("operation", JStr "insert"); ("table", JStr "t"); ("data", JStr "{a:1}")].

Definition raw_query : Obj :=
  [("operation", JStr "executeQuery");
   ("query", JStr "UPDATE t SET a = ? WHERE id = ?");
   ("queryParams", JStr "1, 7")].

Definition upsert : Obj := [("operation", JStr "upsert")].

Definition select_t : Obj :=
  [("operation", JStr "select"); ("table", JStr "t"); ("returnAll", JBool true)].

(** Items: one with a property named as a Select output, one that is the
    error record of an earlier step, one plain. *)
Definition item_rows : Item :=
  {| json := JObj [("id", JNum 7); ("rows", JStr "mine")] |}.

Definition item_flagged : Item :=
  {| json := JObj [("id", JNum 8); ("error", JBool true);
                   ("errorMessage", JStr "Duplicate entry '8' for key 'PRIMARY'");
                   ("errorCode", JStr "ER_DUP_ENTRY");
                   ("errorDetails",
                    JStr "Error: Duplicate entry '8' for key 'PRIMARY'")] |}.

Definition item_plain : Item := {| json := JObj [("id", JNum 9)] |}.

Definition three_items : list Item := [item_rows; item_plain; item_flagged].

End Example.

(** The operation parameter is one of the five cases of the [switch]. *)
Definition known_operation (operation : JsVal) : bool :=
  existsb (strict_eq_str operation)
          ["executeQuery"; "select"; "insert"; "update"; "delete"].

(** The host with the node parameter [k] set to [v]. *)
Definition with_param (h : Host) (k : string) (v : JsVal) : Host := {|
  settings := settings h;
  getCredentials := getCredentials h;
  getNodeParameter := fun name =>
    if String.eqb name k then v else getNodeParameter h name
|}.

(** A Select statement up to its limit clause. *)
Definition select_front (h : Host) : string :=
  "SELECT " ++ to_string (js_or (getNodeParameter h "columns") (JStr "*"))
  ++ " FROM " ++ quoted (to_string (getNodeParameter h "table"))
  ++ where_clause h ++ order_clause h.

(** The error codes the credential test has a message of its own for. *)
Definition known_code (code : JsVal) : bool :=
  existsb (strict_eq_str code)
          ["ECONNREFUSED"; "ENOTFOUND"; "ETIMEDOUT"; "ER_ACCESS_DENIED_ERROR";
           "ER_BAD_DB_ERROR"; "ER_DBACCESS_DENIED_ERROR";
           "PROTOCOL_CONNECTION_LOST"; "ER_CON_COUNT_ERROR";
           "ER_HOST_IS_BLOCKED"].

(** The log line of a failed table listing. *)
Definition load_failed_log (error : JsError) : Event :=
  EvLog "error" "Failed to load tables" (LErr error).

(** The entry of a table row: the name is [table_name], or [TABLE_NAME]
    when that is missing or empty. *)
Definition option_of_row (row : JsVal) : TableOption :=
  let name := js_or (get_prop_opt row "table_name")
                    (get_prop_opt row "TABLE_NAME") in
  {| opt_name := name;
     opt_value := name;
     opt_description := JStr ("Table: " ++ to_string name) |}.

(** The connection settings both [execute] and [getTables] hand to the
    driver. *)
Definition connection_keys : list string :=
  ["host"; "port"; "database"; "user"; "password"; "ssl"; "connectTimeout"].

(** ** Shapes of marshaled parameters *)

Fixpoint comma_free (s : string) : bool :=
  match s with
  | EmptyString => true
  | String c rest => (negb (Ascii.eqb c ","%char) && comma_free rest)%bool
  end.

Fixpoint count_commas (s : string) : nat :=
  match s with
  | EmptyString => O
  | String c rest =>
      if Ascii.eqb c ","%char then S (count_commas rest) else count_commas rest
  end.

Definition starts_space (s : string) : bool :=
  match s with
  | EmptyString => false
  | String c _ => is_space c
  end.

(** No white space at either end. *)
Definition trimmed (s : string) : bool :=
  (negb (starts_space s) && negb (starts_space (rev_string EmptyString s)))%bool.

(** ** Shapes of traces *)

Definition is_log (ev : Event) : bool :=
  match ev with EvLog _ _ _ => true | _ => false end.

Definition is_end (ev : Event) : bool :=
  match ev with EvEnd => true | _ => false end.

Definition is_create_pool (ev : Event) : bool :=
  match ev with EvCreatePool _ => true | _ => false end.

Definition is_create_connection (ev : Event) : bool :=
  match ev with EvCreateConnection _ => true | _ => false end.

(** Statements and log lines: what the processing of an item may emit. *)
Definition is_item_event (ev : Event) : bool := (is_execute ev || is_log ev)%bool.

(** Number of events of a kind in a trace. *)
Definition count_events (kind : Event -> bool) (evs : list Event) : nat :=
  List.length (filter kind evs).

Section TraceShapes.

Context {DB : Type}.

(** Whatever the driver state, [m] emits events of the given kind only. *)
Definition emits_only {A} (kind : Event -> bool) (m : M (DB:=DB) A) : Prop :=
  forall db, forallb kind (out_events (m db)) = true.

End TraceShapes.

(* ================================================================== *)
(** * Properties of objects and records *)
(* ================================================================== *)

Unset Implicit Arguments.

Lemma obj_get_set_same (k : string) (v : JsVal) (o : Obj) :
  obj_get k (obj_set k v o) = Some v.
Proof.
  induction o as [|[k' v'] o IH]; simpl.
  - now rewrite String.eqb_refl.
  - destruct (String.eqb k k') eqn:E; simpl.
    + now rewrite String.eqb_refl.
    + now rewrite E.
Qed.

Lemma obj_get_set_other (k k' : string) (v : JsVal) (o : Obj) :
  k <> k' -> obj_get k' (obj_set k v o) = obj_get k' o.
Proof.
  intros Hne. induction o as [|[k0 v0] o IH]; simpl.
  - destruct (String.eqb k' k) eqn:E; [|reflexivity].
    apply String.eqb_eq in E. congruence.
  - destruct (String.eqb k k0) eqn:E; simpl.
    + apply String.eqb_eq in E. subst k0.
      destruct (String.eqb k' k) eqn:E'; [|reflexivity].
      apply String.eqb_eq in E'. congruence.
    + now rewrite IH.
Qed.

(** A property defined after the spread wins over the spread one; a key
    that is not defined again keeps the value it had. *)
Lemma obj_get_assign (k : string) (props o : Obj) :
  obj_get k (obj_assign o props) =
  match obj_get k (rev props) with
  | Some v => Some v
  | None => obj_get k o
  end.
Proof.
  unfold obj_assign. revert o.
  induction props as [|[k' v'] props IH]; intros o; simpl; [reflexivity|].
  rewrite IH. clear IH.
  assert (Happ : forall l1 l2 : Obj,
             obj_get k (l1 ++ l2)%list =
             match obj_get k l1 with Some v => Some v | None => obj_get k l2 end).
  { induction l1 as [|[a b] l1 IH1]; intros l2; simpl; [reflexivity|].
    destruct (String.eqb k a); [reflexivity|apply IH1]. }
  rewrite Happ. destruct (obj_get k (rev props)); [reflexivity|].
  simpl. destruct (String.eqb k k') eqn:E.
  - apply String.eqb_eq in E. subst. apply obj_get_set_same.
  - apply obj_get_set_other. intros ->. now rewrite String.eqb_refl in E.
Qed.

Lemma obj_get_In (k : string) (v : JsVal) (o : Obj) :
  obj_get k o = Some v -> In (k, v) o.
Proof.
  induction o as [|[k' v'] o IH]; simpl; [discriminate|].
  destruct (String.eqb k k') eqn:E.
  - apply String.eqb_eq in E. intros [= ->]. subst. now left.
  - intros Hg. right. now apply IH.
Qed.

Lemma obj_get_None (k : string) (o : Obj) :
  obj_get k o = None <-> ~ In k (keys o).
Proof.
  induction o as [|[k' v'] o IH]; simpl.
  - tauto.
  - destruct (String.eqb k k') eqn:E.
    + apply String.eqb_eq in E. subst. split; [discriminate|]. tauto.
    + rewrite IH. split.
      * intros Hn [He|Hi]; [|tauto]. subst. now rewrite String.eqb_refl in E.
      * tauto.
Qed.

Lemma In_obj_get (k : string) (v : JsVal) (o : Obj) :
  NoDup (keys o) -> In (k, v) o -> obj_get k o = Some v.
Proof.
  induction o as [|[k' v'] o IH]; simpl; [tauto|].
  intros Hnd Hin. inversion Hnd as [|? ? Hni Hnd']; subst.
  destruct Hin as [Heq|Hin].
  - inversion Heq; subst. now rewrite String.eqb_refl.
  - destruct (String.eqb k k') eqn:E.
    + apply String.eqb_eq in E. subst. exfalso. apply Hni.
      change k' with (fst (k', v)). now apply in_map.
    + now apply IH.
Qed.

(** With distinct keys, a lookup does not depend on the order of the
    properties. *)
Lemma obj_get_Permutation (k : string) (o o' : Obj) :
  NoDup (keys o) -> Permutation o o' -> obj_get k o = obj_get k o'.
Proof.
  intros Hnd Hp.
  assert (Hnd' : NoDup (keys o')).
  { eapply Permutation_NoDup; [|exact Hnd]. now apply Permutation_map. }
  destruct (obj_get k o) as [v|] eqn:E.
  - symmetry. apply In_obj_get; [exact Hnd'|].
    eapply Permutation_in; [exact Hp|]. now apply obj_get_In.
  - symmetry. apply obj_get_None. apply obj_get_None in E.
    intros Hin. apply E. eapply Permutation_in; [|exact Hin].
    apply Permutation_map. now apply Permutation_sym.
Qed.

Lemma insert_index_Permutation n kv l :
  Permutation (map snd (insert_index n kv l)) (kv :: map snd l).
Proof.
  induction l as [|[m kv'] l IH]; simpl; [reflexivity|].
  destruct (n <? m)%N; simpl; [reflexivity|].
  rewrite IH. apply perm_swap.
Qed.

Lemma ordered_props_Permutation (o : Obj) : Permutation (ordered_props o) o.
Proof.
  unfold ordered_props, named_props.
  induction o as [|[k v] o IH]; simpl; [reflexivity|].
  destruct (index_of_key k); simpl.
  - rewrite insert_index_Permutation. simpl. now apply perm_skip.
  - rewrite <- Permutation_middle. now apply perm_skip.
Qed.

(** Spreading an object with distinct keys keeps every property. *)
Lemma spread_get (k : string) (o : Obj) :
  NoDup (keys o) -> obj_get k (spread (JObj o)) = obj_get k o.
Proof.
  intros Hnd. unfold spread. rewrite obj_get_assign. simpl.
  assert (Hp : Permutation (rev (ordered_props o)) o).
  { rewrite <- Permutation_rev. apply ordered_props_Permutation. }
  rewrite <- (obj_get_Permutation k) with (o := rev (ordered_props o)) (o' := o).
  - now destruct (obj_get k (rev (ordered_props o))).
  - eapply Permutation_NoDup; [|exact Hnd].
    apply Permutation_map. now apply Permutation_sym.
  - exact Hp.
Qed.

(* ================================================================== *)
(** * Reasoning about effects *)
(* ================================================================== *)

Section EffectLemmas.

Context {DB : Type}.

Lemma bind_ok_inv {A B} (m : M (DB:=DB) A) (k : A -> M B) (db : DB) (b : B) :
  out_res (bind m k db) = Ok b ->
  exists a, out_res (m db) = Ok a /\ out_res (k a (out_db (m db))) = Ok b.
Proof.
  unfold bind. destruct (out_res (m db)) as [a|e] eqn:E; simpl.
  - intros Hk. now exists a.
  - discriminate.
Qed.


Lemma runs_ret {A} (a : A) (db : DB) : runs (ret a) db db [] (Ok a).
Proof. reflexivity. Qed.

Lemma runs_throw {A} (e : JsError) (db : DB) :
  runs (throw (A:=A) e) db db [] (Throw e).
Proof. reflexivity. Qed.

Lemma runs_lift {A} (r r' : Res A) (db : DB) :
  r = r' -> runs (lift r) db db [] r'.
Proof. now intros <-. Qed.

Lemma runs_emit (ev : Event) (db : DB) : runs (emit ev) db db [ev] (Ok tt).
Proof. reflexivity. Qed.

Lemma runs_bind_ok {A B} (m : M A) (k : A -> M B) (db db1 db2 : DB)
      (evs1 evs2 : list Event) (a : A) (r : Res B) :
  runs m db db1 evs1 (Ok a) ->
  runs (k a) db1 db2 evs2 r ->
  runs (bind m k) db db2 (evs1 ++ evs2) r.
Proof. unfold runs, bind. intros -> . simpl. now intros ->. Qed.

Lemma runs_bind_throw {A B} (m : M A) (k : A -> M B) (db db1 : DB)
      (evs : list Event) (e : JsError) :
  runs m db db1 evs (Throw e) ->
  runs (bind m k) db db1 evs (Throw e).
Proof. unfold runs, bind. now intros ->. Qed.

Lemma runs_try_ok {A} (m : M A) (hd : JsError -> M A) (db db1 : DB)
      (evs : list Event) (a : A) :
  runs m db db1 evs (Ok a) ->
  runs (try_catch m hd) db db1 evs (Ok a).
Proof. unfold runs, try_catch. now intros ->. Qed.

Lemma runs_try_throw {A} (m : M A) (hd : JsError -> M A) (db db1 db2 : DB)
      (evs1 evs2 : list Event) (e : JsError) (r : Res A) :
  runs m db db1 evs1 (Throw e) ->
  runs (hd e) db1 db2 evs2 r ->
  runs (try_catch m hd) db db2 (evs1 ++ evs2) r.
Proof. unfold runs, try_catch. intros ->. simpl. now intros ->. Qed.

Lemma runs_try_finally {A} (m : M A) (f : M unit) (db db1 db2 : DB)
      (evs1 evs2 : list Event) (r : Res A) (r2 : Res unit) :
  runs m db db1 evs1 r ->
  runs f db1 db2 evs2 r2 ->
  runs (try_finally m f) db db2 (evs1 ++ evs2)
       (match r2 with Ok _ => r | Throw e => Throw e end).
Proof. unfold runs, try_finally. intros ->. simpl. now intros ->. Qed.

Lemma runs_self {A} (m : M A) (db : DB) :
  runs m db (out_db (m db)) (out_events (m db)) (out_res (m db)).
Proof. unfold runs. now destruct (m db). Qed.

Lemma runs_as {A} (m : M A) (db db' : DB) (evs evs' : list Event)
      (r r' : Res A) :
  runs m db db' evs r -> evs = evs' -> r = r' -> runs m db db' evs' r'.
Proof. now intros Hr <- <-. Qed.

Lemma runs_conv {A} (m : M A) (db db' : DB) (evs evs' : list Event)
      (r r' : Res A) :
  runs m db db' evs r -> evs = evs' -> r = r' -> m db = mkOut db' evs' r'.
Proof. now intros Hr <- <-. Qed.

End EffectLemmas.

Ltac inv_bind :=
  repeat match goal with
    | Hb : out_res (bind _ _ _) = Ok _ |- _ =>
        let a := fresh "a" in
        let Ha := fresh "Ha" in
        apply bind_ok_inv in Hb; destruct Hb as [a [Ha Hb]];
        cbv beta zeta in Hb
    end.

Section Shape.

Context {DB : Type} `{Driver DB} `{Engine}.

Ltac keys_done :=
  match goal with
  | Hr : out_res (ret _ _) = Ok ?f |- _ =>
      simpl in Hr; injection Hr as <-;
      split; [repeat constructor; simpl; intuition discriminate | reflexivity]
  end.

Lemma process_item_keys (h : Host) (operation : JsVal) (fields : Obj) (db : DB) :
  out_res (process_item h operation db) = Ok fields ->
  NoDup (keys fields) /\ keys fields = operation_fields operation.
Proof.
  unfold process_item, operation_fields.
  destruct (strict_eq_str operation "executeQuery").
  { unfold op_executeQuery. intros Hr. cbv zeta in Hr. inv_bind. keys_done. }
  destruct (strict_eq_str operation "select").
  { unfold op_select. intros Hr. cbv zeta in Hr. inv_bind. keys_done. }
  destruct (strict_eq_str operation "insert").
  { unfold op_insert. intros Hr. cbv zeta in Hr. inv_bind. keys_done. }
  destruct (strict_eq_str operation "update").
  { unfold op_update. cbv zeta.
    destruct (negb (truthy (getNodeParameter h "where"))); [discriminate|].
    intros Hr. inv_bind. keys_done. }
  destruct (strict_eq_str operation "delete").
  { unfold op_delete. cbv zeta.
    destruct (negb (truthy (getNodeParameter h "where"))); [discriminate|].
    intros Hr. inv_bind. keys_done. }
  discriminate.
Qed.

(** What [handle_item] does, in terms of the outcome of the operation: the
    driver state and the calls are the operation's; the item only enters
    the record. *)
Lemma handle_item_eq (h : Host) (cof operation : JsVal) (item : Item) (db : DB) :
  handle_item h cof operation item db =
  let o := process_item h operation db in
  mkOut (out_db o) (out_events o)
        (res_map (record item) (outcome_fields cof (out_res o))).
Proof.
  unfold handle_item, try_catch, bind, outcome_fields.
  destruct (process_item h operation db) as [db' evs [f|e]]; simpl.
  - now rewrite app_nil_r.
  - destruct (truthy cof); simpl; now rewrite app_nil_r.
Qed.

Lemma handle_item_fields (h : Host) (cof operation : JsVal) (item out : Item) (db : DB) :
  out_res (handle_item h cof operation item db) = Ok out ->
  exists fields : Obj,
    outcome_fields cof (out_res (process_item h operation db)) = Ok fields
    /\ out = record item fields
    /\ NoDup (keys fields)
    /\ (keys fields = operation_fields operation \/ keys fields = error_keys).
Proof.
  rewrite handle_item_eq. simpl. unfold outcome_fields.
  destruct (out_res (process_item h operation db)) as [f|e] eqn:E; simpl.
  - intros [= <-]. apply process_item_keys in E. destruct E as [Hnd Hk].
    exists f. auto.
  - destruct (truthy cof); simpl; [|discriminate].
    intros [= <-]. exists (error_fields e).
    split; [reflexivity|]. split; [reflexivity|].
    split; [|right; reflexivity].
    repeat constructor; simpl; intuition discriminate.
Qed.




End Shape.

(* ================================================================== *)
(** * The invocation around the batch *)
(* ================================================================== *)

Section Invocation.

Context {DB : Type} `{Driver DB} `{Engine}.

Lemma runs_pool_execute (sql : JsVal) (params : list JsVal) (db db1 : DB)
      (r : Res (JsVal * JsVal)) :
  drv_execute db sql params = (db1, r) ->
  runs (pool_execute sql params) db db1 [EvExecute sql params] r.
Proof. unfold runs, pool_execute. now intros ->. Qed.

Lemma resolve_rejected (h : Host) (db : DB) :
  credentials_selected h = false ->
  runs (resolve_credentials h) db db [] (Throw (Error (resolution_error h))).
Proof.
  unfold credentials_selected, resolution_error, resolve_credentials.
  destruct (getCredentials h "mysqlDb") as [c|e]; intros Hsel.
  - apply negb_true_iff in Hsel. rewrite negb_andb in Hsel.
    eapply runs_as.
    + eapply runs_try_throw; [|apply runs_throw].
      eapply runs_bind_ok; [now apply runs_lift|].
      rewrite Hsel. apply runs_throw.
    + reflexivity.
    + reflexivity.
  - eapply runs_as.
    + eapply runs_try_throw; [|apply runs_throw].
      eapply runs_bind_throw. now apply runs_lift.
    + reflexivity.
    + reflexivity.
Qed.

Lemma resolve_selected (h : Host) (db : DB) (c : JsVal) :
  getCredentials h "mysqlDb" = Ok c ->
  credentials_selected h = true ->
  runs (resolve_credentials h) db db [hd (EvEnd) (setup_events h c)]
       (Ok (connection_params h c)).
Proof.
  unfold credentials_selected, resolve_credentials. intros Hc. rewrite Hc.
  intros Hsel. apply negb_false_iff in Hsel. rewrite negb_andb in Hsel.
  apply runs_try_ok.
  eapply runs_as.
  - eapply runs_bind_ok; [now apply runs_lift|].
    rewrite Hsel.
    eapply runs_bind_ok; [apply runs_emit|apply runs_ret].
  - reflexivity.
  - reflexivity.
Qed.

Lemma runs_driver_end (db : DB) :
  runs driver_end db (fst (drv_end db)) [EvEnd] (snd (drv_end db)).
Proof. unfold runs, driver_end. now destruct (drv_end db). Qed.

Lemma execute_rejected (h : Host) (inputData : InputData) (db : DB) :
  credentials_selected h = false ->
  execute h inputData db
  = mkOut db (opening_events h) (Throw (Error (resolution_error h))).
Proof.
  intros Hsel. unfold execute, logger.
  eapply runs_conv.
  - eapply runs_bind_ok; [apply runs_emit|].
    eapply runs_bind_ok; [apply runs_emit|].
    eapply runs_bind_throw. now apply resolve_rejected.
  - reflexivity.
  - reflexivity.
Qed.

Lemma execute_selected (h : Host) (inputData : InputData) (db : DB) (c : JsVal) :
  getCredentials h "mysqlDb" = Ok c ->
  credentials_selected h = true ->
  execute h inputData db
  = let o := process_items h (continueOnFail h) (getNodeParameter h "operation")
               (itemsToProcess inputData) db in
    mkOut (fst (drv_end (out_db o)))
          (opening_events h ++ setup_events h c ++ out_events o ++ [EvEnd])
          (match snd (drv_end (out_db o)) with
           | Ok _ => out_res o
           | Throw e => Throw e
           end).
Proof.
  intros Hc Hsel. unfold execute, logger, createPool. cbv zeta.
  eapply runs_conv.
  - eapply runs_bind_ok; [apply runs_emit|].
    eapply runs_bind_ok; [apply runs_emit|].
    eapply runs_bind_ok; [now apply (resolve_selected h db c)|].
    eapply runs_bind_ok; [apply runs_emit|].
    eapply runs_try_finally; [apply runs_self|apply runs_driver_end].
  - reflexivity.
  - reflexivity.
Qed.

End Invocation.

(* ================================================================== *)
(** * One record per item *)
(* ================================================================== *)

Section Records.

Context {DB : Type} `{Driver DB} `{Engine}.


Lemma obj_get_rev (k : string) (fields : Obj) :
  NoDup (keys fields) -> obj_get k (rev fields) = obj_get k fields.
Proof.
  intros Hnd. symmetry. apply obj_get_Permutation; [exact Hnd|].
  apply Permutation_rev.
Qed.

(** C9.  In the record of an item, a key of the operation (or of the
    error) holds the value the operation gave it, whatever the item held
    under that key (the same properties come out for any other item); every
    other key holds what the item held. *)
Theorem record_collision (h : Host) (cof operation : JsVal) (item out : Item) (db : DB) :
  out_res (handle_item h cof operation item db) = Ok out ->
  exists fields : Obj,
    (keys fields = operation_fields operation \/ keys fields = error_keys)
    /\ (forall item', out_res (handle_item h cof operation item' db)
                      = Ok (record item' fields))
    /\ (forall k v, obj_get k fields = Some v -> field_of out k = Some v)
    /\ (forall k, obj_get k fields = None ->
                  field_of out k = obj_get k (spread (json item)))
    /\ (forall o, json item = JObj o -> NoDup (keys o) ->
         forall k, obj_get k fields = None -> field_of out k = obj_get k o).
Proof.
  intros Hr. apply handle_item_fields in Hr.
  destruct Hr as [fields [Hf [-> [Hnd Hk]]]].
  exists fields. split; [exact Hk|].
  assert (Hget : forall k, field_of (record item fields) k =
                           match obj_get k fields with
                           | Some v => Some v
                           | None => obj_get k (spread (json item))
                           end).
  { intros k. unfold field_of, record. simpl.
    rewrite obj_get_assign, obj_get_rev by exact Hnd. reflexivity. }
  split; [|split; [|split]].
  - intros item'. rewrite handle_item_eq. simpl. now rewrite Hf.
  - intros k v Hv. now rewrite Hget, Hv.
  - intros k Hv. now rewrite Hget, Hv.
  - intros o Ho Hndo k Hv. rewrite Hget, Hv, Ho. now apply spread_get.
Qed.

End Records.


Lemma record_collision_witness :
  exists fields : Obj,
    (keys fields = ["rows"; "rowCount"] \/ keys fields = error_keys)
    /\ (forall item',
          out_res (@handle_item nat (scripted Example.healthy) RefJson.engine
                     (Example.host false Example.select_t) (JBool false)
                     (JStr "select") item' 0%nat)
          = Ok (record item' fields))
    /\ (forall k v, obj_get k fields = Some v ->
         field_of (record Example.item_rows
                     [("rows", JArr []); ("rowCount", JNum 0)]) k = Some v)
    /\ (forall k, obj_get k fields = None ->
         field_of (record Example.item_rows
                     [("rows", JArr []); ("rowCount", JNum 0)]) k
         = obj_get k (spread (json Example.item_rows)))
    /\ (forall o, json Example.item_rows = JObj o -> NoDup (keys o) ->
         forall k, obj_get k fields = None ->
         field_of (record Example.item_rows
                     [("rows", JArr []); ("rowCount", JNum 0)]) k
         = obj_get k o).
Proof.
  apply (@record_collision nat (scripted Example.healthy) RefJson.engine
           (Example.host false Example.select_t) (JBool false) (JStr "select")
           Example.item_rows
           (record Example.item_rows [("rows", JArr []); ("rowCount", JNum 0)])
           0%nat).
  reflexivity.
Defined.

(* ================================================================== *)
(** * Strings *)
(* ================================================================== *)

Lemma append_assoc (a b c : string) : ((a ++ b) ++ c = a ++ (b ++ c))%string.
Proof. induction a as [|x a IH]; simpl; [reflexivity|now rewrite IH]. Qed.

Lemma append_nil_r (a : string) : (a ++ EmptyString = a)%string.
Proof. induction a as [|x a IH]; simpl; [reflexivity|now rewrite IH]. Qed.


(* ================================================================== *)
(** * Validation before execution *)
(* ================================================================== *)

Section Validation.

Context {DB : Type} `{Driver DB} `{Engine}.

Lemma process_items_silent (h : Host) (cof operation : JsVal) (e : JsError)
      (items : list Item) (db : DB) :
  (forall db', process_item h operation db' = mkOut db' [] (Throw e)) ->
  exists r, process_items h cof operation items db = mkOut db [] r.
Proof.
  intros Hp. revert db.
  induction items as [|item rest IH]; intros db; simpl.
  - eexists. reflexivity.
  - unfold bind. rewrite handle_item_eq, Hp. simpl.
    destruct (truthy cof); simpl; [|eexists; reflexivity].
    destruct (IH db) as [r Hr]. rewrite Hr. simpl.
    destruct r; simpl; eexists; reflexivity.
Qed.

(** C3.  An Update or a Delete whose where parameter is the empty string
    fails with the where-clause-required error; the item makes no call on
    the driver and neither does any item of the batch. *)
Theorem empty_where_rejected (h : Host) (cof operation : JsVal) (item : Item)
        (items : list Item) (db : DB) :
  operation = JStr "update" \/ operation = JStr "delete" ->
  getNodeParameter h "where" = JStr EmptyString ->
  process_item h operation db
  = mkOut db [] (Throw (Error (where_required operation)))
  /\ handle_item h cof operation item db
     = mkOut db []
         (res_map (record item)
            (outcome_fields cof (Throw (Error (where_required operation)))))
  /\ out_events (process_items h cof operation items db) = [].
Proof.
  intros Hop Hw.
  assert (Hp : forall db', process_item h operation db'
                  = mkOut db' [] (Throw (Error (where_required operation)))).
  { intros db'. destruct Hop as [-> | ->]; unfold process_item; simpl.
    - unfold op_update. cbv zeta. rewrite Hw. reflexivity.
    - unfold op_delete. cbv zeta. rewrite Hw. reflexivity. }
  split; [apply Hp|]. split.
  - rewrite handle_item_eq, Hp. reflexivity.
  - destruct (process_items_silent h cof operation _ items db Hp) as [r Hr].
    now rewrite Hr.
Qed.

(** C10.  A Select with an empty where parameter builds the statement from
    the columns, the table, the order and the limit only, and executes it
    with an empty parameter list: the where parameters play no part. *)
Theorem select_ignores_whereParams (h : Host) (db : DB) :
  getNodeParameter h "where" = JStr EmptyString ->
  select_statement h
  = Ok (select_base h ++ order_clause h ++ limit_clause h, [])
  /\ out_events (op_select h db)
     = [EvExecute (JStr (select_base h ++ order_clause h ++ limit_clause h)) []]
  /\ (forall h', (forall k, k <> "whereParams" ->
                       getNodeParameter h' k = getNodeParameter h k) ->
                 select_statement h' = select_statement h).
Proof.
  intros Hw.
  assert (Hs : forall h0, getNodeParameter h0 "where" = JStr EmptyString ->
               select_statement h0
               = Ok (select_base h0 ++ order_clause h0 ++ limit_clause h0, [])).
  { intros h0 Hw0. unfold select_statement, select_base, order_clause, limit_clause.
    rewrite Hw0. simpl.
    destruct (truthy (getNodeParameter h0 "orderBy"));
      destruct (truthy (getNodeParameter h0 "returnAll")); simpl;
      try destruct (truthy (getNodeParameter h0 "limit")); simpl;
      repeat rewrite append_assoc; repeat rewrite append_nil_r;
      simpl; repeat rewrite append_assoc; reflexivity. }
  split; [now apply Hs|]. split.
  - unfold op_select, bind, lift. rewrite (Hs h Hw). simpl.
    unfold pool_execute.
    destruct (drv_execute db _ _) as [db' [rf|e]]; simpl; [|reflexivity].
    destruct (get_prop (fst rf) "length"); reflexivity.
  - intros h' Hsame.
    assert (Hw' : getNodeParameter h' "where" = JStr EmptyString).
    { rewrite Hsame; [exact Hw|discriminate]. }
    rewrite (Hs h Hw), (Hs h' Hw').
    unfold select_base, order_clause, limit_clause.
    rewrite !Hsame by discriminate. reflexivity.
Qed.

(** C7.  An Insert into table [t] with the data object [{a: 1, b: 2}]
    first executes [INSERT INTO `t` (`a`, `b`) VALUES (?, ?)] with the
    parameters [[1, 2]]. *)
Theorem insert_example (h : Host) (db : DB) :
  getNodeParameter h "table" = JStr "t" ->
  parse_data (getNodeParameter h "data")
  = Ok (JObj [("a", JNum 1); ("b", JNum 2)]) ->
  insert_statement (getNodeParameter h "table")
    (JObj [("a", JNum 1); ("b", JNum 2)])
  = Ok ("INSERT INTO `t` (`a`, `b`) VALUES (?, ?)", [JNum 1; JNum 2])
  /\ exists rest,
       out_events (process_item h (JStr "insert") db)
       = EvExecute (JStr "INSERT INTO `t` (`a`, `b`) VALUES (?, ?)")
                   [JNum 1; JNum 2] :: rest.
Proof.
  intros Ht Hd. split; [rewrite Ht; reflexivity|].
  unfold process_item. simpl. unfold op_insert. cbv zeta.
  rewrite Ht, Hd. unfold bind, lift, pool_execute. simpl.
  destruct (drv_execute db _ _) as [db' [rf|e]]; simpl;
    eexists; reflexivity.
Qed.

End Validation.

Lemma empty_where_rejected_witness :
  @process_item nat (scripted Example.healthy) RefJson.engine
    (Example.host true Example.update_no_where) (JStr "update") 0%nat
  = mkOut 0%nat [] (Throw (Error update_where_required))
  /\ @handle_item nat (scripted Example.healthy) RefJson.engine
       (Example.host true Example.update_no_where) (JBool true) (JStr "update")
       Example.item_plain 0%nat
     = mkOut 0%nat []
         (Ok (record Example.item_plain
                (error_fields (Error update_where_required))))
  /\ out_events
       (@process_items nat (scripted Example.healthy) RefJson.engine
          (Example.host true Example.update_no_where) (JBool true)
          (JStr "update") [Example.item_plain; Example.item_rows] 0%nat)
     = [].
Proof.
  apply (@empty_where_rejected nat (scripted Example.healthy) RefJson.engine
           (Example.host true Example.update_no_where) (JBool true)
           (JStr "update") Example.item_plain
           [Example.item_plain; Example.item_rows] 0%nat).
  - left. reflexivity.
  - reflexivity.
Defined.

Lemma select_ignores_whereParams_witness :
  @select_statement (Example.host true Example.select_no_where)
  = Ok ("SELECT * FROM `t` LIMIT 50", []).
Proof.
  apply (proj1 (@select_ignores_whereParams nat (scripted Example.healthy)
                  (Example.host true Example.select_no_where) 0%nat
                  eq_refl)).
Defined.

Lemma insert_example_witness :
  exists rest,
    out_events (@process_item nat (scripted Example.healthy) RefJson.engine
                  (Example.host true Example.insert_t) (JStr "insert") 0%nat)
    = EvExecute (JStr "INSERT INTO `t` (`a`, `b`) VALUES (?, ?)")
                [JNum 1; JNum 2] :: rest.
Proof.
  apply (proj2 (@insert_example nat (scripted Example.healthy) RefJson.engine
                  (Example.host true Example.insert_t) 0%nat
                  eq_refl eq_refl)).
Defined.

(* ================================================================== *)
(** * The credential test *)
(* ================================================================== *)

Section CredentialTest.

Context {DB : Type} `{Driver DB}.

(** When the required fields are there, [test] never throws: what the
    connection attempt throws is classified. *)
Lemma test_classifies (data : JsVal) (db : DB) :
  missing_required data = false ->
  test data db =
  let o := test_connection data db in
  mkOut (out_db o) (out_events o)
        (match out_res o with
         | Ok r => Ok r
         | Throw e => Ok (classify_error data e)
         end).
Proof.
  intros Hm. unfold test, bind, lift.
  assert (Hd : exists v, get_prop data "host" = Ok v).
  { destruct data; simpl; eauto; discriminate. }
  destruct Hd as [v Hv]. rewrite Hv. simpl. rewrite Hm.
  unfold try_catch.
  destruct (test_connection data db) as [db' evs [r|e]]; simpl.
  - reflexivity.
  - now rewrite app_nil_r.
Qed.

(** C8.  When the connection attempt of a credential test fails with an
    error whose code is ER_ACCESS_DENIED_ERROR, the test returns
    [success: false] with the authentication-failure message, which is not
    the generic connection-failed message. *)
Theorem access_denied_is_authentication_failure (data : JsVal) (db : DB)
        (error : JsError) :
  missing_required data = false ->
  out_res (test_connection data db) = Throw error ->
  e_code error = JStr "ER_ACCESS_DENIED_ERROR" ->
  out_res (test data db)
  = Ok {| success := false; message := authentication_failed |}
  /\ authentication_failed <> connection_failed error.
Proof.
  intros Hm Ht Hc. split.
  - rewrite test_classifies by exact Hm. simpl. rewrite Ht.
    unfold classify_error. rewrite Hc. reflexivity.
  - unfold authentication_failed, connection_failed. simpl. discriminate.
Qed.

End CredentialTest.

Lemma access_denied_is_authentication_failure_witness :
  out_res (@test nat (scripted Example.denying) Example.credentials 0%nat)
  = Ok {| success := false; message := authentication_failed |}
  /\ authentication_failed <> connection_failed Example.access_denied.
Proof.
  apply (@access_denied_is_authentication_failure nat
           (scripted Example.denying) Example.credentials 0%nat
           Example.access_denied); reflexivity.
Defined.

(* ================================================================== *)
(** * Reading back after a write *)
(* ================================================================== *)

Lemma get_prop_not_nullish (v : JsVal) (k : string) :
  nullish v = false -> get_prop v k = Ok (get_prop_opt v k).
Proof.
  unfold get_prop_opt. destruct (get_prop v k) eqn:E; [reflexivity|].
  destruct v; simpl in *; try discriminate.
  - destruct (String.eqb k "length"); [discriminate|].
    destruct (index_of_key k); discriminate.
  - destruct (String.eqb k "length"); [discriminate|].
    destruct (index_of_key k); discriminate.
Qed.

Section FetchAfterWrite.

Context {DB : Type} `{Driver DB} `{Engine}.


Local Arguments append : simpl never.
Local Arguments to_string : simpl never.
Local Arguments get_prop_opt : simpl never.



End FetchAfterWrite.



(* ================================================================== *)
(** * Credential resolution *)
(* ================================================================== *)

Section Resolution.

Context {DB : Type} `{Driver DB} `{Engine}.

(** C6, as the code has it.  [execute] fails with "Failed to get
    credentials: ...", before any pool or connection is opened and before
    any statement, exactly when the credentials could not be obtained, are
    empty or have no host; with credentials that have a host it opens the
    pool, whether or not they have a database, a user and a password.  The
    credential test answers [success: false], without opening a connection,
    when any of host, database, user or password is missing. *)
Theorem credential_guard (h : Host) (inputData : InputData) (data : JsVal) (db : DB) :
  (credentials_selected h = false ->
   execute h inputData db
   = mkOut db (opening_events h) (Throw (Error (resolution_error h)))
   /\ forallb (fun ev => negb (is_open ev || is_execute ev))
              (out_events (execute h inputData db)) = true)
  /\ (credentials_selected h = true ->
      exists c, getCredentials h "mysqlDb" = Ok c
                /\ truthy (get_prop_opt c "host") = true
                /\ In (EvCreatePool (pool_config (connection_params h c)))
                      (out_events (execute h inputData db)))
  /\ (nullish data = false -> missing_required data = true ->
      test data db = mkOut db [] (Ok (failure fields_required))).
Proof.
  split; [|split].
  - intros Hsel. rewrite execute_rejected by exact Hsel. split; reflexivity.
  - intros Hsel. unfold credentials_selected in Hsel.
    destruct (getCredentials h "mysqlDb") as [c|e] eqn:Hc; [|discriminate].
    exists c. split; [reflexivity|].
    apply andb_true_iff in Hsel. split; [tauto|].
    rewrite (execute_selected h inputData db c Hc).
    + simpl. right. right. right. left. reflexivity.
    + unfold credentials_selected. rewrite Hc. now apply andb_true_iff.
  - intros Hn Hm. unfold test, bind, lift.
    rewrite (get_prop_not_nullish _ _ Hn). simpl. now rewrite Hm.
Qed.

End Resolution.

(** C6, counterexample.  Credentials that have a host but no database, no
    user and no password pass the guard of [execute]: the pool is opened
    and the batch runs. *)
Lemma host_only_credentials_accepted :
  has_field Example.host_only "database" = false
  /\ has_field Example.host_only "user" = false
  /\ has_field Example.host_only "password" = false
  /\ out_res (@execute nat (scripted Example.healthy) RefJson.engine
                (Example.host_with (Ok Example.host_only) false Example.select_t)
                (Example.input [Example.item_plain]) 0%nat)
     = Ok [record Example.item_plain [("rows", JArr []); ("rowCount", JNum 0)]]
  /\ In (EvCreatePool
           [("host", JStr "localhost"); ("port", JNum 3306);
            ("database", JUndefined); ("user", JUndefined);
            ("password", JUndefined); ("ssl", JBool false);
            ("waitForConnections", JBool true); ("connectionLimit", JNum 10);
            ("queueLimit", JNum 0); ("connectTimeout", JNum 10000)])
        (out_events
           (@execute nat (scripted Example.healthy) RefJson.engine
              (Example.host_with (Ok Example.host_only) false Example.select_t)
              (Example.input [Example.item_plain]) 0%nat)).
Proof.
  repeat split; try reflexivity.
  vm_compute. right. right. right. left. reflexivity.
Qed.

Lemma credential_guard_witness :
  (@execute nat (scripted Example.healthy) RefJson.engine
     (Example.host_with (Ok Example.no_host) true Example.select_t)
     (Example.input [Example.item_plain]) 0%nat
   = mkOut 0%nat
       (opening_events
          (Example.host_with (Ok Example.no_host) true Example.select_t))
       (Throw (Error ("Failed to get credentials: " ++ credentials_required))))
  /\ (exists c,
        Ok Example.host_only = Ok c
        /\ truthy (get_prop_opt c "host") = true
        /\ In (EvCreatePool
                 (pool_config
                    (connection_params
                       (Example.host_with (Ok Example.host_only) true
                          Example.select_t) c)))
              (out_events
                 (@execute nat (scripted Example.healthy) RefJson.engine
                    (Example.host_with (Ok Example.host_only) true
                       Example.select_t)
                    (Example.input [Example.item_plain]) 0%nat)))
  /\ @test nat (scripted Example.healthy) Example.no_host 0%nat
     = mkOut 0%nat [] (Ok (failure fields_required)).
Proof.
  split; [|split].
  - apply (proj1 (@credential_guard nat (scripted Example.healthy) RefJson.engine
                    (Example.host_with (Ok Example.no_host) true Example.select_t)
                    (Example.input [Example.item_plain]) JNull 0%nat)).
    reflexivity.
  - apply (proj1 (proj2 (@credential_guard nat (scripted Example.healthy)
                           RefJson.engine
                           (Example.host_with (Ok Example.host_only) true
                              Example.select_t)
                           (Example.input [Example.item_plain]) JNull 0%nat))).
    reflexivity.
  - apply (proj2 (proj2 (@credential_guard nat (scripted Example.healthy)
                           RefJson.engine
                           (Example.host true Example.select_t)
                           (Example.input []) Example.no_host 0%nat)));
      reflexivity.
Defined.

(* ================================================================== *)
(** * One failing item in a batch *)
(* ================================================================== *)

Section Batch.

Context {DB : Type} `{Driver DB} `{Engine}.

Lemma process_items_cons (h : Host) (cof operation : JsVal) (item : Item)
      (rest : list Item) (db : DB) :
  process_items h cof operation (item :: rest) db =
  let o := process_item h operation db in
  match outcome_fields cof (out_res o) with
  | Ok fields =>
      let o' := process_items h cof operation rest (out_db o) in
      mkOut (out_db o') (out_events o ++ out_events o')
            (res_map (cons (record item fields)) (out_res o'))
  | Throw e => mkOut (out_db o) (out_events o) (Throw e)
  end.
Proof.
  cbn [process_items]. unfold bind at 1. rewrite handle_item_eq. cbv zeta.
  cbn [out_res out_db out_events].
  destruct (outcome_fields cof (out_res (process_item h operation db)))
    as [f|e]; cbn [res_map]; [|reflexivity].
  unfold bind.
  destruct (process_items h cof operation rest
              (out_db (process_item h operation db))) as [db' evs [rs|e]];
    cbn; [|reflexivity].
  now rewrite app_nil_r.
Qed.







End Batch.

Section OneFailure.

Context {DB : Type} `{Driver DB} `{Engine}.




End OneFailure.



(* ================================================================== *)
(** * Statements and their parameters *)
(* ================================================================== *)

Ltac string_norm :=
  cbn; rewrite ?append_assoc, ?append_nil_r; cbn;
  rewrite ?append_assoc, ?append_nil_r; cbn.

Lemma map_const_eq {A B C} (c : C) (l1 : list A) (l2 : list B) :
  List.length l1 = List.length l2 ->
  map (fun _ => c) l1 = map (fun _ => c) l2.
Proof.
  revert l2. induction l1 as [|x l1 IH]; intros [|y l2]; simpl;
    try discriminate; [reflexivity|].
  intros [= Hl]. now rewrite (IH l2).
Qed.

(** With at least one column, the column list of an Insert is the columns,
    each between backticks, separated by commas. *)
Lemma quoted_columns (columns : list string) :
  columns <> [] ->
  quoted (join "`, `" columns) = join ", " (map quoted columns).
Proof.
  intros Hne. destruct columns as [|c columns]; [congruence|]. clear Hne.
  unfold quoted. revert c.
  induction columns as [|c' columns IH]; intros c; [reflexivity|].
  change (join "`, `" (c :: c' :: columns))
    with (c ++ "`, `" ++ join "`, `" (c' :: columns)).
  change (join ", " (map (fun s => "`" ++ s ++ "`") (c :: c' :: columns)))
    with (("`" ++ c ++ "`") ++ ", "
          ++ join ", " (map (fun s => "`" ++ s ++ "`") (c' :: columns))).
  rewrite <- IH. string_norm. reflexivity.
Qed.

Section StatementLemmas.

Context {DB : Type} `{Driver DB} `{Engine}.

Lemma statement_text_of (h : Host) (c : Crud) (q : string) (ps : list JsVal) :
  statement_of h c = Ok (q, ps) ->
  q = statement_text h c (columns_of h c)
  /\ ps = (values_of h c ++ params_of h c)%list.
Proof.
  destruct c; unfold statement_of, statement_text, columns_of, values_of,
    params_of, data_columns, data_values, where_params.
  - (* Select *)
    unfold select_statement, where_clause, order_clause, limit_clause, quoted.
    destruct (truthy (getNodeParameter h "where"));
      [destruct (marshal_params _ _) as [wp|e]; [|discriminate]|];
      intros [= <- <-]; (split; [|reflexivity]);
      destruct (truthy (getNodeParameter h "orderBy"));
      destruct (truthy (getNodeParameter h "returnAll"));
      try destruct (truthy (getNodeParameter h "limit"));
      string_norm; reflexivity.
  - (* Insert *)
    destruct (parse_data _) as [data|e]; [|discriminate].
    unfold insert_statement, object_keys, object_values, quoted.
    destruct (nullish data); [discriminate|].
    intros [= <- <-]. split; [|now rewrite app_nil_r].
    rewrite (map_const_eq "?" (map snd (own_props data))
               (map fst (own_props data)))
      by now rewrite !length_map.
    string_norm. reflexivity.
  - (* Update *)
    destruct (negb (truthy (getNodeParameter h "where"))); [discriminate|].
    destruct (parse_data _) as [data|e]; [|discriminate].
    unfold update_statement, object_keys, object_values, quoted.
    destruct (nullish data); [discriminate|].
    destruct (marshal_params _ _) as [wp|e]; [|discriminate].
    intros [= <- <-]. split; [|reflexivity].
    rewrite (map_ext (fun col : string => ("`" ++ col ++ "`") ++ " = ?")
                     (fun col : string => "`" ++ col ++ "` = ?"))
      by (intros col; now rewrite !append_assoc).
    string_norm. reflexivity.
  - (* Delete *)
    destruct (negb (truthy (getNodeParameter h "where"))); [discriminate|].
    unfold delete_statement, quoted.
    destruct (marshal_params _ _) as [wp|e]; [|discriminate].
    intros [= <- <-]. split; [|reflexivity].
    string_norm. reflexivity.
Qed.

Lemma bind_lift_ok {A B} (a : A) (k : A -> M (DB:=DB) B) (db : DB) :
  bind (lift (Ok a)) k db = k a db.
Proof. unfold bind, lift. cbn. now destruct (k a db). Qed.

Lemma bind_execute_events {B} (sql : JsVal) (params : list JsVal)
      (k : JsVal * JsVal -> M (DB:=DB) B) (db : DB) :
  exists rest,
    out_events (bind (pool_execute sql params) k db)
    = EvExecute sql params :: rest.
Proof.
  unfold bind, pool_execute.
  destruct (drv_execute db sql params) as [db' [rf|e]]; cbn; eauto.
Qed.

(** The statement is what the operation executes first. *)
Lemma statement_executed (h : Host) (c : Crud) (q : string) (ps : list JsVal)
      (db : DB) :
  statement_of h c = Ok (q, ps) ->
  exists rest,
    out_events (process_item h (JStr (crud_name c)) db)
    = EvExecute (JStr q) ps :: rest.
Proof.
  destruct c; unfold statement_of, process_item; cbn [crud_name strict_eq_str];
    cbn [String.eqb Ascii.eqb Bool.eqb andb]; cbv iota.
  - intros Hs. unfold op_select. rewrite Hs, bind_lift_ok.
    apply bind_execute_events.
  - unfold op_insert. cbv zeta.
    destruct (parse_data _) as [data|e]; [|discriminate].
    intros Hs. rewrite bind_lift_ok, Hs, bind_lift_ok.
    apply bind_execute_events.
  - unfold op_update. cbv zeta.
    destruct (negb (truthy (getNodeParameter h "where"))); [discriminate|].
    destruct (parse_data _) as [data|e]; [|discriminate].
    intros Hs. rewrite bind_lift_ok, Hs, bind_lift_ok.
    apply bind_execute_events.
  - unfold op_delete. cbv zeta.
    destruct (negb (truthy (getNodeParameter h "where"))); [discriminate|].
    intros Hs. rewrite Hs, bind_lift_ok.
    apply bind_execute_events.
Qed.

End StatementLemmas.

Section Parameterized.

Context {DB : Type} `{Driver DB} `{Engine}.

Lemma statement_text_same (h h' : Host) (c : Crud) :
  same_identifiers h h' ->
  statement_text h' c (columns_of h' c) = statement_text h c (columns_of h c).
Proof.
  intros [Hsame Hcols].
  assert (Hc : columns_of h' c = columns_of h c).
  { unfold columns_of. now rewrite Hcols. }
  rewrite Hc.
  unfold statement_text, where_clause, order_clause, limit_clause.
  rewrite !Hsame by discriminate. reflexivity.
Qed.

(** C2, as the code has it.  The statement a Select, Insert, Update or
    Delete executes is built from the table name between backticks, the
    column names of the data (each between backticks) and the request's
    column list, where clause, order and limit, taken as they are; it is
    the same for two requests that differ in their data values and where
    parameters only.  The parameters of the call are the data values
    followed by the where parameters. *)
Theorem values_only_as_parameters (h : Host) (c : Crud) (q : string)
        (ps : list JsVal) (db : DB) :
  statement_of h c = Ok (q, ps) ->
  (exists rest,
      out_events (process_item h (JStr (crud_name c)) db)
      = EvExecute (JStr q) ps :: rest)
  /\ q = statement_text h c (columns_of h c)
  /\ ps = (values_of h c ++ params_of h c)%list
  /\ (forall h' q' ps',
        same_identifiers h h' -> statement_of h' c = Ok (q', ps') -> q' = q)
  /\ (columns_of h c <> [] ->
      quoted (join "`, `" (columns_of h c))
      = join ", " (map quoted (columns_of h c))).
Proof.
  intros Hs.
  destruct (statement_text_of h c q ps Hs) as [Hq Hps].
  split; [now apply statement_executed|].
  split; [exact Hq|]. split; [exact Hps|]. split.
  - intros h' q' ps' Hsame Hs'.
    destruct (statement_text_of h' c q' ps' Hs') as [Hq' _].
    rewrite Hq', Hq. now apply statement_text_same.
  - apply quoted_columns.
Qed.

End Parameterized.

(** C2, counterexample.  A Select of [id,name] from [t] with the limit 50:
    the limit is part of the statement text and the parameter list is
    empty; the column list is not quoted. *)
Lemma select_limit_interpolated :
  select_statement (Example.host false (Example.select_limit 50))
  = Ok ("SELECT id,name FROM `t` LIMIT 50", [])
  /\ select_statement (Example.host false (Example.select_limit 10))
     = Ok ("SELECT id,name FROM `t` LIMIT 10", [])
  /\ ~ limit_is_parameter (Example.host false (Example.select_limit 50)).
Proof.
  split; [reflexivity|]. split; [reflexivity|].
  intros Hp. exact (Hp _ _ eq_refl).
Qed.

Lemma values_only_as_parameters_witness :
  (exists rest,
      out_events (@process_item nat (scripted Example.healthy) RefJson.engine
                    (Example.host false Example.update_by_id) (JStr "update")
                    0%nat)
      = EvExecute (JStr "UPDATE `t` SET `a` = ?, `b` = ? WHERE id = ?")
                  [JNum 1; JNum 2; JStr "7"] :: rest)
  /\ "UPDATE `t` SET `a` = ?, `b` = ? WHERE id = ?"
     = @statement_text (Example.host false Example.update_by_id) CUpdate
         (@columns_of RefJson.engine (Example.host false Example.update_by_id)
            CUpdate)
  /\ [JNum 1; JNum 2; JStr "7"]
     = (@values_of RefJson.engine (Example.host false Example.update_by_id)
          CUpdate
        ++ params_of (Example.host false Example.update_by_id) CUpdate)%list.
Proof.
  destruct (@values_only_as_parameters nat (scripted Example.healthy)
              RefJson.engine (Example.host false Example.update_by_id) CUpdate
              "UPDATE `t` SET `a` = ?, `b` = ? WHERE id = ?"
              [JNum 1; JNum 2; JStr "7"] 0%nat eq_refl)
    as [Hex [Hq [Hps _]]].
  split; [exact Hex|]. split; [exact Hq|exact Hps].
Defined.

(* ================================================================== *)
(** * Worked examples *)
(* ================================================================== *)

(** [whereParams = "123, active"] marshals to the strings [123] and
    [active]. *)
Example marshal_trims :
  marshal_params "whereParamsStr" (JStr "123, active")
  = Ok [JStr "123"; JStr "active"].
Proof. reflexivity. Qed.

(** With [returnAll] the Select has no limit clause. *)
Example select_return_all :
  select_statement (Example.host false Example.select_t)
  = Ok ("SELECT * FROM `t`", []).
Proof. reflexivity. Qed.

(** An empty batch runs the operation once, on the empty item. *)
Example empty_batch_runs_once :
  out_res (@execute nat (scripted Example.healthy) RefJson.engine
             (Example.host false Example.select_t) (Example.input []) 0%nat)
  = Ok [ {| json := JObj [("rows", JArr []); ("rowCount", JNum 0)] |} ].
Proof. reflexivity. Qed.

(** Integer-like column names come first, in numeric order. *)
Example insert_column_order :
  insert_statement (JStr "t")
    (JObj [("b", JNum 1); ("10", JNum 2); ("2", JNum 3)])
  = Ok ("INSERT INTO `t` (`2`, `10`, `b`) VALUES (?, ?, ?)",
        [JNum 3; JNum 2; JNum 1]).
Proof. reflexivity. Qed.

(** An unknown operation is an item failure like any other. *)
Example unknown_operation_record :
  out_res (@handle_item nat (scripted Example.healthy) RefJson.engine
             (Example.host true []) (JBool true) (JStr "upsert")
             Example.item_plain 0%nat)
  = Ok (record Example.item_plain
          (error_fields (Error "Unknown operation: upsert"))).
Proof. reflexivity. Qed.

(* ================================================================== *)
(** * Traces of an invocation *)
(* ================================================================== *)

Section EmitsOnly.

Context {DB : Type}.

Lemma emits_only_ret {A} (kind : Event -> bool) (a : A) :
  emits_only (DB:=DB) kind (ret a).
Proof. intros db. reflexivity. Qed.

Lemma emits_only_throw {A} (kind : Event -> bool) (e : JsError) :
  emits_only (DB:=DB) kind (throw (A:=A) e).
Proof. intros db. reflexivity. Qed.

Lemma emits_only_lift {A} (kind : Event -> bool) (r : Res A) :
  emits_only (DB:=DB) kind (lift r).
Proof. intros db. reflexivity. Qed.

Lemma emits_only_emit (kind : Event -> bool) (ev : Event) :
  kind ev = true -> emits_only (DB:=DB) kind (emit ev).
Proof. intros Hk db. cbn. now rewrite Hk. Qed.

Lemma emits_only_bind {A B} (kind : Event -> bool) (m : M (DB:=DB) A)
      (k : A -> M B) :
  emits_only kind m -> (forall a, emits_only kind (k a)) ->
  emits_only kind (bind m k).
Proof.
  intros Hm Hk db. unfold bind. specialize (Hm db).
  destruct (m db) as [db1 evs1 [a|e]]; cbn in *; [|exact Hm].
  rewrite forallb_app, Hm. apply Hk.
Qed.

Lemma emits_only_try_catch {A} (kind : Event -> bool) (m : M (DB:=DB) A)
      (hd : JsError -> M A) :
  emits_only kind m -> (forall e, emits_only kind (hd e)) ->
  emits_only kind (try_catch m hd).
Proof.
  intros Hm Hh db. unfold try_catch. specialize (Hm db).
  destruct (m db) as [db1 evs1 [a|e]]; cbn in *; [exact Hm|].
  rewrite forallb_app, Hm. apply Hh.
Qed.

Lemma emits_only_if {A} (kind : Event -> bool) (c : bool) (m1 m2 : M (DB:=DB) A) :
  emits_only kind m1 -> emits_only kind m2 ->
  emits_only kind (if c then m1 else m2).
Proof. now destruct c. Qed.

End EmitsOnly.

Section ItemTraces.

Context {DB : Type} `{Driver DB} `{Engine}.

Lemma emits_only_pool_execute (kind : Event -> bool) (sql : JsVal)
      (params : list JsVal) :
  kind (EvExecute sql params) = true ->
  emits_only kind (pool_execute sql params).
Proof.
  intros Hk db. unfold pool_execute.
  destruct (drv_execute db sql params). cbn. now rewrite Hk.
Qed.

Lemma emits_only_driver_end (kind : Event -> bool) :
  kind EvEnd = true -> emits_only kind driver_end.
Proof.
  intros Hk db. unfold driver_end. destruct (drv_end db). cbn. now rewrite Hk.
Qed.

Lemma emits_only_createConnection (kind : Event -> bool) (config : Obj) :
  kind (EvCreateConnection config) = true ->
  emits_only kind (createConnection config).
Proof.
  intros Hk db. unfold createConnection.
  destruct (drv_connect db config). cbn. now rewrite Hk.
Qed.

Ltac emits :=
  repeat first
    [ apply emits_only_ret
    | apply emits_only_throw
    | apply emits_only_lift
    | apply emits_only_emit; reflexivity
    | apply emits_only_pool_execute; reflexivity
    | apply emits_only_driver_end; reflexivity
    | apply emits_only_createConnection; reflexivity
    | apply emits_only_if
    | apply emits_only_try_catch; [|intros ?]
    | apply emits_only_bind; [|intros ?] ].

(** Processing an item executes statements and writes log lines; it never
    opens or closes anything. *)
Lemma process_item_emits (h : Host) (operation : JsVal) :
  emits_only is_item_event (process_item h operation).
Proof.
  unfold process_item, op_executeQuery, op_select, op_insert, op_update,
    op_delete, fetch_inserted, fetch_updated, logger.
  cbv zeta. emits.
Qed.

Lemma handle_item_emits (h : Host) (cof operation : JsVal) (item : Item) :
  emits_only is_item_event (handle_item h cof operation item).
Proof.
  intros db. rewrite handle_item_eq. cbn. apply process_item_emits.
Qed.

Lemma process_items_emits (h : Host) (cof operation : JsVal) (items : list Item) :
  emits_only is_item_event (process_items h cof operation items).
Proof.
  induction items as [|item rest IH]; cbn [process_items].
  - apply emits_only_ret.
  - apply emits_only_bind; [apply handle_item_emits|intros r].
    apply emits_only_bind; [exact IH|intros rs]. apply emits_only_ret.
Qed.

Lemma count_events_app (kind : Event -> bool) (evs1 evs2 : list Event) :
  count_events kind (evs1 ++ evs2)
  = (count_events kind evs1 + count_events kind evs2)%nat.
Proof. unfold count_events. now rewrite filter_app, length_app. Qed.

Lemma count_events_none (kind other : Event -> bool) (evs : list Event) :
  forallb other evs = true ->
  (forall ev, other ev = true -> kind ev = false) ->
  count_events kind evs = 0%nat.
Proof.
  intros Hall Hdis. unfold count_events.
  induction evs as [|ev evs IH]; [reflexivity|].
  cbn in Hall. apply andb_true_iff in Hall. destruct Hall as [Hev Hall].
  cbn. rewrite (Hdis ev Hev). now apply IH.
Qed.

(** X1.  With credentials that pass the guard, an invocation opens the pool
    exactly once, before any statement, and closes it exactly once, as its
    last call, whether the batch succeeds, records failures or aborts; it
    opens no single connection. *)
Theorem pool_opened_and_closed_once (h : Host) (inputData : InputData) (db : DB) :
  credentials_selected h = true ->
  exists c before items_trace,
    getCredentials h "mysqlDb" = Ok c
    /\ out_events (execute h inputData db)
       = (before ++ EvCreatePool (pool_config (connection_params h c))
                 :: items_trace ++ [EvEnd])%list
    /\ forallb is_log before = true
    /\ forallb is_item_event items_trace = true
    /\ count_events is_create_pool (out_events (execute h inputData db)) = 1%nat
    /\ count_events is_end (out_events (execute h inputData db)) = 1%nat
    /\ count_events is_create_connection
         (out_events (execute h inputData db)) = 0%nat.
Proof.
  intros Hsel.
  assert (Hc : exists c, getCredentials h "mysqlDb" = Ok c).
  { unfold credentials_selected in Hsel.
    destruct (getCredentials h "mysqlDb"); [eauto|discriminate]. }
  destruct Hc as [c Hc].
  pose proof (process_items_emits h (continueOnFail h)
                (getNodeParameter h "operation") (itemsToProcess inputData) db)
    as Hitems.
  set (trace := out_events
                  (process_items h (continueOnFail h)
                     (getNodeParameter h "operation")
                     (itemsToProcess inputData) db)) in *.
  assert (Hev : out_events (execute h inputData db)
                = ((opening_events h
                    ++ [hd EvEnd (setup_events h c)])
                   ++ EvCreatePool (pool_config (connection_params h c))
                   :: trace ++ [EvEnd])%list).
  { rewrite (execute_selected h inputData db c Hc Hsel). cbv zeta.
    cbn [out_events]. fold trace. reflexivity. }
  exists c, (opening_events h ++ [hd EvEnd (setup_events h c)])%list, trace.
  split; [exact Hc|]. split; [exact Hev|].
  split; [reflexivity|]. split; [exact Hitems|].
  rewrite Hev.
  assert (Hz : forall kind, (forall ev, is_item_event ev = true -> kind ev = false) ->
                            count_events kind trace = 0%nat).
  { intros kind Hk. eapply count_events_none; eauto. }
  repeat split.
  - rewrite count_events_app.
    change (EvCreatePool ?x :: trace ++ [EvEnd])%list
      with ([EvCreatePool x] ++ trace ++ [EvEnd])%list.
    rewrite !count_events_app, Hz; [reflexivity|].
    intros [] Hk; try reflexivity; discriminate.
  - rewrite count_events_app.
    change (EvCreatePool ?x :: trace ++ [EvEnd])%list
      with ([EvCreatePool x] ++ trace ++ [EvEnd])%list.
    rewrite !count_events_app, Hz; [reflexivity|].
    intros [] Hk; try reflexivity; discriminate.
  - rewrite count_events_app.
    change (EvCreatePool ?x :: trace ++ [EvEnd])%list
      with ([EvCreatePool x] ++ trace ++ [EvEnd])%list.
    rewrite !count_events_app, Hz; [reflexivity|].
    intros [] Hk; try reflexivity; discriminate.
Qed.

(** X2.  When closing the pool fails, the invocation fails with that error,
    whatever the batch produced: the records of a successful batch are lost
    and the error of an aborted one is replaced. *)
Theorem pool_end_failure_replaces_outcome (h : Host) (inputData : InputData)
        (db : DB) (e : JsError) :
  credentials_selected h = true ->
  snd (drv_end (out_db (process_items h (continueOnFail h)
                          (getNodeParameter h "operation")
                          (itemsToProcess inputData) db))) = Throw e ->
  out_res (execute h inputData db) = Throw e.
Proof.
  intros Hsel Hend.
  assert (Hc : exists c, getCredentials h "mysqlDb" = Ok c).
  { unfold credentials_selected in Hsel.
    destruct (getCredentials h "mysqlDb"); [eauto|discriminate]. }
  destruct Hc as [c Hc].
  rewrite (execute_selected h inputData db c Hc Hsel). cbv zeta.
  cbn [out_res]. now rewrite Hend.
Qed.

End ItemTraces.

(* ================================================================== *)
(** * Failing before the first statement *)
(* ================================================================== *)

Section BeforeExecution.

Context {DB : Type} `{Driver DB} `{Engine}.

Lemma process_items_all_fail (h : Host) (cof operation : JsVal) (e : JsError)
      (items : list Item) (db : DB) :
  (forall db', process_item h operation db' = mkOut db' [] (Throw e)) ->
  truthy cof = true ->
  process_items h cof operation items db
  = mkOut db [] (Ok (map (fun item => record item (error_fields e)) items)).
Proof.
  intros Hp Hc. induction items as [|item rest IH]; [reflexivity|].
  rewrite process_items_cons. cbv zeta. rewrite Hp.
  cbn [out_res outcome_fields]. rewrite Hc. cbn [out_db out_events].
  rewrite IH. reflexivity.
Qed.

Lemma process_item_statement_error (h : Host) (c : Crud) (e : JsError) (db : DB) :
  statement_of h c = Throw e ->
  process_item h (JStr (crud_name c)) db = mkOut db [] (Throw e).
Proof.
  destruct c; unfold statement_of, process_item; cbn [crud_name strict_eq_str];
    cbn [String.eqb Ascii.eqb Bool.eqb andb]; cbv iota.
  - intros Hs. unfold op_select. now rewrite Hs.
  - unfold op_insert. cbv zeta.
    destruct (parse_data _) as [data|e']; [|now intros [= ->]].
    intros Hs. now rewrite bind_lift_ok, Hs.
  - unfold op_update. cbv zeta.
    destruct (negb (truthy (getNodeParameter h "where")));
      [now intros [= ->]|].
    destruct (parse_data _) as [data|e']; [|now intros [= ->]].
    intros Hs. now rewrite bind_lift_ok, Hs.
  - unfold op_delete. cbv zeta.
    destruct (negb (truthy (getNodeParameter h "where")));
      [now intros [= ->]|].
    intros Hs. now rewrite Hs.
Qed.

(** X3.  A Select, Insert, Update or Delete whose statement cannot be built
    (no where clause, data that does not parse or is null, where parameters
    that are not a string) fails with the error of the construction and
    makes no call on the driver; under continue-on-fail the item's record
    carries that error. *)
Theorem statement_error_before_driver (h : Host) (c : Crud) (e : JsError)
        (cof : JsVal) (item : Item) (db : DB) :
  statement_of h c = Throw e ->
  process_item h (JStr (crud_name c)) db = mkOut db [] (Throw e)
  /\ handle_item h cof (JStr (crud_name c)) item db
     = mkOut db []
         (if truthy cof then Ok (record item (error_fields e)) else Throw e).
Proof.
  intros Hs. pose proof (process_item_statement_error h c e db Hs) as Hp.
  split; [exact Hp|]. rewrite handle_item_eq, Hp. cbn.
  now destruct (truthy cof).
Qed.

(** X4.  An Insert, or an Update with a where clause, whose data is a text
    that [JSON.parse] rejects fails with "Invalid JSON data: " followed by
    the message of the parser, before any call on the driver. *)
Theorem invalid_json_data (h : Host) (c : Crud) (text : string) (e : JsError)
        (db : DB) :
  c = CInsert \/ (c = CUpdate /\ truthy (getNodeParameter h "where") = true) ->
  getNodeParameter h "data" = JStr text ->
  JSON_parse text = Throw e ->
  process_item h (JStr (crud_name c)) db
  = mkOut db [] (Throw (Error ("Invalid JSON data: " ++ e_message e))).
Proof.
  intros Hcase Hd Hp. apply process_item_statement_error.
  unfold statement_of, parse_data. rewrite Hd, Hp.
  destruct Hcase as [-> | [-> Hw]]; [reflexivity|].
  now rewrite Hw.
Qed.

(** X5.  When the operation parameter is none of the five operations, no
    statement is executed in the whole invocation; under continue-on-fail
    every item yields an error record with the "Unknown operation" message,
    and without it the invocation fails with that error.  The pool is
    opened and closed all the same. *)
Theorem unknown_operation (h : Host) (inputData : InputData) (db : DB) :
  let operation := getNodeParameter h "operation" in
  let error := Error ("Unknown operation: " ++ to_string operation) in
  credentials_selected h = true ->
  known_operation operation = false ->
  snd (drv_end db) = Ok tt ->
  count_events is_execute (out_events (execute h inputData db)) = 0%nat
  /\ count_events is_create_pool (out_events (execute h inputData db)) = 1%nat
  /\ count_events is_end (out_events (execute h inputData db)) = 1%nat
  /\ out_res (execute h inputData db)
     = if truthy (continueOnFail h)
       then Ok (map (fun item => record item (error_fields error))
                    (itemsToProcess inputData))
       else Throw error.
Proof.
  cbv zeta. intros Hsel Hop Hend.
  assert (Hp : forall db',
             process_item h (getNodeParameter h "operation") db'
             = mkOut db' []
                 (Throw (Error ("Unknown operation: "
                                ++ to_string (getNodeParameter h "operation"))))).
  { intros db'. unfold process_item. unfold known_operation in Hop.
    cbn [existsb] in Hop. repeat rewrite orb_false_iff in Hop.
    destruct Hop as [-> [-> [-> [-> [-> _]]]]]. reflexivity. }
  assert (Hc : exists c, getCredentials h "mysqlDb" = Ok c).
  { unfold credentials_selected in Hsel.
    destruct (getCredentials h "mysqlDb"); [eauto|discriminate]. }
  destruct Hc as [c Hc].
  destruct (process_items_silent h (continueOnFail h) _ _
              (itemsToProcess inputData) db Hp) as [r Hr].
  rewrite (execute_selected h inputData db c Hc Hsel). cbv zeta.
  rewrite Hr. cbn [out_db out_events out_res]. rewrite Hend.
  split; [reflexivity|]. split; [reflexivity|]. split; [reflexivity|].
  destruct (truthy (continueOnFail h)) eqn:Hcof.
  - rewrite (process_items_all_fail h _ _ _ _ db Hp Hcof) in Hr.
    now injection Hr as <-.
  - destruct (itemsToProcess inputData) as [|item rest] eqn:Hi.
    + unfold itemsToProcess in Hi. destruct (input_items inputData); discriminate.
    + rewrite process_items_cons in Hr. cbv zeta in Hr. rewrite Hp in Hr.
      cbn [out_res outcome_fields] in Hr. rewrite Hcof in Hr.
      now injection Hr as <-.
Qed.

End BeforeExecution.

(* ================================================================== *)
(** * Execute Query and Select *)
(* ================================================================== *)

Section QueryAndSelect.

Context {DB : Type} `{Driver DB} `{Engine}.

Lemma emits_nothing {A} (m : M (DB:=DB) A) (db : DB) :
  emits_only (fun _ => false) m -> out_events (m db) = [].
Proof.
  intros Hm. specialize (Hm db).
  destruct (out_events (m db)); [reflexivity|discriminate].
Qed.

Lemma bind_execute_trace {B} (sql : JsVal) (params : list JsVal)
      (k : JsVal * JsVal -> M (DB:=DB) B) (db : DB) :
  (forall rf, emits_only (fun _ => false) (k rf)) ->
  out_events (bind (pool_execute sql params) k db) = [EvExecute sql params].
Proof.
  intros Hk. unfold bind, pool_execute.
  destruct (drv_execute db sql params) as [db' [rf|e]]; cbn; [|reflexivity].
  now rewrite (emits_nothing (k rf) db' (Hk rf)).
Qed.

(** X6.  Execute Query makes exactly one call on the driver: the query
    parameter as it is, with the comma-separated parameters split and
    trimmed; when the parameters cannot be split it makes none. *)
Theorem executeQuery_single_statement (h : Host) (db : DB) :
  match marshal_params "paramsStr" (getNodeParameter h "queryParams") with
  | Ok ps =>
      out_events (process_item h (JStr "executeQuery") db)
      = [EvExecute (getNodeParameter h "query") ps]
  | Throw e =>
      process_item h (JStr "executeQuery") db = mkOut db [] (Throw e)
  end.
Proof.
  unfold process_item. cbn [strict_eq_str String.eqb Ascii.eqb Bool.eqb andb].
  cbv iota. unfold op_executeQuery. cbv zeta.
  destruct (marshal_params _ _) as [ps|e]; [|reflexivity].
  rewrite bind_lift_ok. apply bind_execute_trace.
  intros rf.
  repeat (apply emits_only_bind; [apply emits_only_lift|intros ?]).
  apply emits_only_ret.
Qed.

(** X7.  A successful Execute Query always reports [rows] as an array and
    [rowCount] as its length: a row set as it is, any other result (the
    header of a write) as the one-element array holding it. *)
Theorem executeQuery_rows_array (h : Host) (db : DB) (fields : Obj) :
  out_res (process_item h (JStr "executeQuery") db) = Ok fields ->
  exists rows,
    obj_get "rows" fields = Some (JArr rows)
    /\ obj_get "rowCount" fields = Some (JNum (Z.of_nat (List.length rows)))
    /\ (forall ps db' rf,
          marshal_params "paramsStr" (getNodeParameter h "queryParams") = Ok ps ->
          drv_execute db (getNodeParameter h "query") ps = (db', Ok rf) ->
          rows = match fst rf with JArr l => l | other => [other] end).
Proof.
  unfold process_item. cbn [strict_eq_str String.eqb Ascii.eqb Bool.eqb andb].
  cbv iota. unfold op_executeQuery. cbv zeta. intros Hr.
  destruct (marshal_params _ _) as [ps|e] eqn:Hm; [|discriminate].
  rewrite bind_lift_ok in Hr. inv_bind.
  unfold pool_execute in Ha.
  destruct (drv_execute db (getNodeParameter h "query") ps) as [db1 r] eqn:Hx.
  cbn in Ha. subst r. cbn in Hr. injection Hr as <-.
  destruct (fst a) eqn:Hf; cbn;
    eexists; (split; [reflexivity|split; [reflexivity|]]);
    intros ps' db' rf [= <-] Hx'; rewrite Hx in Hx';
    injection Hx' as _ <-; rewrite Hf; reflexivity.
Qed.

(** The Select statement, in full. *)
Lemma select_statement_eq (h : Host) :
  select_statement h
  = match (if truthy (getNodeParameter h "where")
           then where_params h else Ok []) with
    | Ok ps => Ok (statement_text h CSelect [], ps)
    | Throw e => Throw e
    end.
Proof.
  unfold select_statement, statement_text, where_clause, order_clause,
    limit_clause, where_params, quoted.
  destruct (truthy (getNodeParameter h "where"));
    [destruct (marshal_params _ _) as [wp|e]; [|reflexivity]|];
    f_equal; f_equal;
    destruct (truthy (getNodeParameter h "orderBy"));
    destruct (truthy (getNodeParameter h "returnAll"));
    try destruct (truthy (getNodeParameter h "limit"));
    string_norm; reflexivity.
Qed.

(** X8.  In a Select, [returnAll] switches the limit off: with it the
    limit parameter plays no part; without it a limit that is not zero or
    empty is appended as [ LIMIT n] to the statement the request would
    build with [returnAll], the parameters staying the same; a zero or
    empty limit appends nothing. *)
Theorem select_limit_switch (h : Host) :
  (truthy (getNodeParameter h "returnAll") = true ->
   forall v, select_statement (with_param h "limit" v) = select_statement h)
  /\ (truthy (getNodeParameter h "returnAll") = false ->
      forall q ps,
        select_statement (with_param h "returnAll" (JBool true)) = Ok (q, ps) ->
        select_statement h
        = Ok (if truthy (getNodeParameter h "limit")
              then q ++ " LIMIT " ++ to_string (getNodeParameter h "limit")
              else q, ps)).
Proof.
  assert (Hfront : forall h0, statement_text h0 CSelect []
                              = select_front h0 ++ limit_clause h0).
  { intros h0. unfold statement_text, select_front.
    now rewrite !append_assoc. }
  assert (Hsame : forall k v, k = "limit" \/ k = "returnAll" ->
             select_front (with_param h k v) = select_front h
             /\ where_params (with_param h k v) = where_params h
             /\ getNodeParameter (with_param h k v) "where"
                = getNodeParameter h "where").
  { intros k v [-> | ->]; repeat split. }
  split.
  - intros Hall v. rewrite !select_statement_eq, !Hfront.
    destruct (Hsame "limit" v (or_introl eq_refl)) as [-> [-> ->]].
    unfold limit_clause.
    change (getNodeParameter (with_param h "limit" v) "returnAll")
      with (getNodeParameter h "returnAll").
    now rewrite Hall.
  - intros Hall q ps. rewrite !select_statement_eq, !Hfront.
    destruct (Hsame "returnAll" (JBool true) (or_intror eq_refl))
      as [-> [-> ->]].
    unfold limit_clause at 1.
    change (getNodeParameter (with_param h "returnAll" (JBool true)) "returnAll")
      with (JBool true).
    cbn [truthy]. rewrite append_nil_r.
    destruct (if truthy (getNodeParameter h "where")
              then where_params h else Ok []) as [wp|e]; [|discriminate].
    intros [= <- <-]. unfold limit_clause. rewrite Hall.
    destruct (truthy (getNodeParameter h "limit"));
      [reflexivity|now rewrite append_nil_r].
Qed.

End QueryAndSelect.

(* ================================================================== *)
(** * Reading back: when, and what comes of it *)
(* ================================================================== *)

Section ReadBack.

Context {DB : Type} `{Driver DB} `{Engine}.


(** X10.  When the read-back of an Insert returns rows, [inserted] is the
    first row laid over [insertId] and [affectedRows]: a column of the row
    shows the row's value, also when it is named [insertId] or
    [affectedRows]; the read-back is executed with the generated id as its
    only parameter.  When it returns no row, [inserted] is [insertId] and
    [affectedRows] alone. *)
Theorem inserted_row_merged (h : Host) (db db1 db2 : DB) (data : JsVal)
        (q : string) (ps : list JsVal) (rf : JsVal * JsVal)
        (rows : list JsVal) (meta : JsVal) :
  parse_data (getNodeParameter h "data") = Ok data ->
  insert_statement (getNodeParameter h "table") data = Ok (q, ps) ->
  drv_execute db (JStr q) ps = (db1, Ok rf) ->
  nullish (fst rf) = false ->
  (negb (strict_eq_str (js_or (getNodeParameter h "returnFields") (JStr "*")) "*")
   || truthy (get_prop_opt (fst rf) "insertId"))%bool = true ->
  drv_execute db1 (insert_fetch_query h) [get_prop_opt (fst rf) "insertId"]
  = (db2, Ok (JArr rows, meta)) ->
  let written := [("insertId", get_prop_opt (fst rf) "insertId");
                  ("affectedRows", get_prop_opt (fst rf) "affectedRows")] in
  exists inserted,
    process_item h (JStr "insert") db
    = mkOut db2
        [EvExecute (JStr q) ps;
         EvExecute (insert_fetch_query h) [get_prop_opt (fst rf) "insertId"]]
        (Ok [("inserted", JObj inserted);
             ("rowCount", get_prop_opt (fst rf) "affectedRows")])
    /\ (rows = [] -> inserted = written)
    /\ (forall o rest, rows = JObj o :: rest -> NoDup (keys o) ->
        forall k, obj_get k inserted
                  = match obj_get k o with
                    | Some v => Some v
                    | None => obj_get k written
                    end).
Proof.
  intros Hd Hs Hx Hn Hf Hx2. cbv zeta.
  set (written := [("insertId", get_prop_opt (fst rf) "insertId");
                   ("affectedRows", get_prop_opt (fst rf) "affectedRows")]).
  exists (match rows with
          | [] => written
          | row :: _ => obj_assign (spread (JObj written)) (own_props row)
          end).
  split; [|split].
  - unfold process_item. cbn. unfold op_insert. cbv zeta.
    assert (Hg : forall (row : JsVal) (rest : list JsVal),
               gt_zero (JNum (Z.of_nat (List.length (row :: rest)))) = true).
    { intros row rest. unfold gt_zero. cbn [to_number List.length].
      apply Z.ltb_lt. lia. }
    assert (Hup : forall rows' inserted,
               drv_execute db1 (insert_fetch_query h)
                 [get_prop_opt (fst rf) "insertId"]
               = (db2, Ok (JArr rows', meta)) ->
               runs (rf2 <- pool_execute (insert_fetch_query h)
                               [get_prop_opt (fst rf) "insertId"] ;;
                     (if truthy (fst rf2) then
                        len <- lift (get_prop (fst rf2) "length") ;;
                        if gt_zero len then
                          row0 <- lift (get_prop (fst rf2) "0") ;;
                          ret (obj_assign (spread (JObj written))
                                          (own_props row0))
                        else ret written
                      else ret written))
                    db1 db2
                    ([EvExecute (insert_fetch_query h)
                        [get_prop_opt (fst rf) "insertId"]] ++ [] ++ [])
                    (Ok inserted) ->
               runs (op_insert h) db db2
                    ([] ++ [] ++ [EvExecute (JStr q) ps] ++ [] ++ []
                     ++ ([EvExecute (insert_fetch_query h)
                            [get_prop_opt (fst rf) "insertId"]] ++ [] ++ [])
                     ++ [])
                    (Ok [("inserted", JObj inserted);
                         ("rowCount", get_prop_opt (fst rf) "affectedRows")])).
    { intros rows' inserted _ Hfetch. unfold op_insert. cbv zeta.
      eapply runs_bind_ok; [apply runs_lift; exact Hd|].
      eapply runs_bind_ok; [apply runs_lift; exact Hs|].
      eapply runs_bind_ok; [apply runs_pool_execute; exact Hx|].
      eapply runs_bind_ok; [apply runs_lift, get_prop_not_nullish, Hn|].
      eapply runs_bind_ok; [apply runs_lift, get_prop_not_nullish, Hn|].
      eapply runs_bind_ok; [|apply runs_ret].
      unfold fetch_inserted. rewrite Hf.
      apply runs_try_ok. exact Hfetch. }
    apply (Hup rows _ Hx2).
    eapply runs_bind_ok; [apply runs_pool_execute; exact Hx2|].
    cbn [fst truthy].
    eapply runs_bind_ok; [apply runs_lift; reflexivity|].
    destruct rows as [|row rest].
    + apply runs_ret.
    + rewrite Hg.
      eapply (runs_as _ _ _ ([] ++ [])%list); [|reflexivity|reflexivity].
      eapply runs_bind_ok; [apply runs_lift; reflexivity|].
      apply runs_ret.
  - now intros ->.
  - intros o rest -> Hnd k. rewrite obj_get_assign.
    change (own_props (JObj o)) with (ordered_props o).
    assert (Hrow : obj_get k (rev (ordered_props o)) = obj_get k o).
    { symmetry. apply obj_get_Permutation; [exact Hnd|].
      rewrite <- Permutation_rev. symmetry. apply ordered_props_Permutation. }
    rewrite Hrow. destruct (obj_get k o); reflexivity.
Qed.

(** X11.  The read-back of an Update uses the where clause and the where
    parameters of the update itself; the rows it returns are reported as
    [updated] as they are. *)
Theorem updated_rows_read_back (h : Host) (db db1 db2 : DB) (data : JsVal)
        (q : string) (ps wp : list JsVal) (rf rf2 : JsVal * JsVal) :
  truthy (getNodeParameter h "where") = true ->
  parse_data (getNodeParameter h "data") = Ok data ->
  update_statement (getNodeParameter h "table") data
    (getNodeParameter h "where") (getNodeParameter h "whereParams") = Ok (q, ps) ->
  marshal_params "whereParamsStr" (getNodeParameter h "whereParams") = Ok wp ->
  drv_execute db (JStr q) ps = (db1, Ok rf) ->
  nullish (fst rf) = false ->
  gt_zero (get_prop_opt (fst rf) "affectedRows") = true ->
  drv_execute db1 (update_fetch_query h) wp = (db2, Ok rf2) ->
  process_item h (JStr "update") db
  = mkOut db2
      [EvExecute (JStr q) ps; EvExecute (update_fetch_query h) wp]
      (Ok [("updated", fst rf2);
           ("rowCount", get_prop_opt (fst rf) "affectedRows");
           ("changedRows", get_prop_opt (fst rf) "changedRows")])
  /\ (exists values, object_values data = Ok values
                     /\ ps = (values ++ wp)%list).
Proof.
  intros Hw Hd Hs Hm Hx Hn Hg Hx2. split.
  - unfold process_item. cbn. unfold op_update. cbv zeta.
    rewrite Hw. cbn [negb].
    eapply runs_conv.
    + eapply runs_bind_ok; [apply runs_lift; exact Hd|].
      eapply runs_bind_ok; [apply runs_lift; exact Hs|].
      eapply runs_bind_ok; [apply runs_pool_execute; exact Hx|].
      eapply runs_bind_ok; [apply runs_lift, get_prop_not_nullish, Hn|].
      eapply runs_bind_ok.
      * unfold fetch_updated. rewrite Hw, Hg. cbn [andb].
        apply runs_try_ok.
        eapply runs_bind_ok; [apply runs_lift; exact Hm|].
        eapply runs_bind_ok; [apply runs_pool_execute; exact Hx2|].
        apply runs_ret.
      * eapply runs_bind_ok; [apply runs_lift, get_prop_not_nullish, Hn|].
        apply runs_ret.
    + reflexivity.
    + reflexivity.
  - unfold update_statement in Hs. rewrite Hm in Hs.
    destruct (object_keys data); [|discriminate].
    destruct (object_values data) as [values|]; [|discriminate].
    exists values. split; [reflexivity|]. now injection Hs as _ <-.
Qed.

End ReadBack.

(* ================================================================== *)
(** * The credential test, on every path *)
(* ================================================================== *)

Section TestPaths.

Context {DB : Type} `{Driver DB}.

Lemma classify_error_fails (data : JsVal) (error : JsError) :
  success (classify_error data error) = false.
Proof.
  unfold classify_error.
  repeat match goal with
         | |- context [if ?c then _ else _] => destruct c
         end; reflexivity.
Qed.

Lemma try_catch_ok_inv {A} (m : M (DB:=DB) A) (hd : JsError -> M A)
      (db : DB) (a : A) :
  out_res (try_catch m hd db) = Ok a ->
  out_res (m db) = Ok a
  \/ exists e, out_res (m db) = Throw e
               /\ out_res (hd e (out_db (m db))) = Ok a.
Proof.
  unfold try_catch. destruct (m db) as [db1 evs [x|e]]; cbn.
  - intros [= ->]. now left.
  - intros Hh. right. eauto.
Qed.

(** X12.  A credential test on data that is not null always answers, never
    throws; it answers [success: true] only when the connection was opened
    and the liveness query was executed by the driver without error. *)
Theorem test_always_answers (data : JsVal) (db : DB) :
  nullish data = false ->
  exists r,
    out_res (test data db) = Ok r
    /\ (success r = true ->
        exists db1 db2 rf,
          drv_connect db (test_config data) = (db1, Ok tt)
          /\ drv_execute db1 liveness_query [] = (db2, Ok rf)).
Proof.
  intros Hn. unfold test. rewrite (get_prop_not_nullish _ _ Hn), bind_lift_ok.
  destruct (missing_required data).
  { eexists. split; [reflexivity|discriminate]. }
  unfold try_catch at 1.
  destruct (out_res (test_connection data db)) as [r|e] eqn:Ht.
  - rewrite Ht. exists r. split; [reflexivity|]. intros _.
    unfold test_connection in Ht.
    apply bind_ok_inv in Ht. destruct Ht as [[] [Hconn Ht]].
    unfold createConnection in Hconn, Ht.
    destruct (drv_connect db (test_config data)) as [db1 rc] eqn:Hc.
    cbn in Hconn, Ht. subst rc.
    apply try_catch_ok_inv in Ht. destruct Ht as [Ht | [e [_ Ht]]].
    + apply bind_ok_inv in Ht. destruct Ht as [rf [Hx _]].
      unfold pool_execute in Hx.
      destruct (drv_execute db1 liveness_query []) as [db2 rx] eqn:Hq.
      cbn in Hx. subst rx. now exists db1, db2, rf.
    + apply bind_ok_inv in Ht. destruct Ht as [_ [_ Ht]]. discriminate.
  - cbn. eexists. split; [reflexivity|].
    now rewrite classify_error_fails.
Qed.

Lemma bind_events {A B} (m : M (DB:=DB) A) (k : A -> M B) (db : DB) :
  out_events (bind m k db)
  = match out_res (m db) with
    | Ok a => (out_events (m db) ++ out_events (k a (out_db (m db))))%list
    | Throw _ => out_events (m db)
    end.
Proof. unfold bind. now destruct (m db) as [db1 evs [a|e]]. Qed.

Lemma try_catch_events {A} (m : M (DB:=DB) A) (hd : JsError -> M A) (db : DB) :
  out_events (try_catch m hd db)
  = match out_res (m db) with
    | Ok _ => out_events (m db)
    | Throw e => (out_events (m db) ++ out_events (hd e (out_db (m db))))%list
    end.
Proof. unfold try_catch. now destruct (m db) as [db1 evs [a|e]]. Qed.

(** Ending the connection and going on with calls of a kind. *)
Lemma end_then {A} (kind : Event -> bool) (k : M (DB:=DB) A) (db : DB) :
  emits_only kind k ->
  exists rest,
    out_events ((driver_end ;;; k) db) = EvEnd :: rest
    /\ forallb kind rest = true.
Proof.
  intros Hk. rewrite bind_events. unfold driver_end.
  destruct (drv_end db) as [db1 [[]|e]]; cbn [out_res out_events out_db].
  - exists (out_events (k db1)). split; [reflexivity|apply Hk].
  - exists []. split; reflexivity.
Qed.

(** A statement, then the connection ended on both paths of the [try]. *)
Lemma execute_then_released {A} (kind : Event -> bool) (sql : JsVal)
      (params : list JsVal) (body : JsVal * JsVal -> M (DB:=DB) A)
      (hd : JsError -> M A) (db : DB) :
  kind EvEnd = true ->
  (forall rf db', exists rest,
      out_events (body rf db') = EvEnd :: rest /\ forallb kind rest = true) ->
  (forall e db', exists rest,
      out_events (hd e db') = EvEnd :: rest /\ forallb kind rest = true) ->
  exists rest,
    out_events (try_catch (rf <- pool_execute sql params ;; body rf) hd db)
    = EvExecute sql params :: EvEnd :: rest
    /\ forallb kind rest = true.
Proof.
  intros Hkind Hbody Hh. rewrite try_catch_events.
  assert (Hb : (rf <- pool_execute sql params ;; body rf) db
               = match drv_execute db sql params with
                 | (db1, Ok rf) =>
                     mkOut (out_db (body rf db1))
                           (EvExecute sql params :: out_events (body rf db1))
                           (out_res (body rf db1))
                 | (db1, Throw e) => mkOut db1 [EvExecute sql params] (Throw e)
                 end).
  { unfold bind, pool_execute.
    now destruct (drv_execute db sql params) as [db1 [rf|e]]. }
  rewrite Hb. clear Hb.
  destruct (drv_execute db sql params) as [db1 [rf|e]];
    cbn [out_res out_events out_db].
  - destruct (Hbody rf db1) as [rest [Hev Hall]]. rewrite Hev.
    destruct (out_res (body rf db1)) as [a|e].
    + exists rest. split; [reflexivity|exact Hall].
    + destruct (Hh e (out_db (body rf db1))) as [rest' [Hev' Hall']].
      rewrite Hev'. exists (rest ++ EvEnd :: rest')%list. split.
      * reflexivity.
      * rewrite forallb_app. cbn. now rewrite Hall, Hall', Hkind.
  - destruct (Hh e db1) as [rest' [Hev' Hall']].
    rewrite Hev'. exists rest'. split; [reflexivity|exact Hall'].
Qed.

(** X13.  A credential test with the required fields present opens one
    connection.  When the driver refuses it, nothing else is called; when
    it is opened, the liveness query is executed and the connection is then
    ended on every path, with no other call. *)
Theorem test_releases_connection (data : JsVal) (db db1 : DB) (rc : Res unit) :
  missing_required data = false ->
  drv_connect db (test_config data) = (db1, rc) ->
  match rc with
  | Throw _ =>
      out_events (test data db) = [EvCreateConnection (test_config data)]
  | Ok _ =>
      exists ends,
        out_events (test data db)
        = (EvCreateConnection (test_config data)
             :: EvExecute liveness_query [] :: EvEnd :: ends)%list
        /\ forallb is_end ends = true
  end.
Proof.
  intros Hm Hc. rewrite (test_classifies data db Hm). cbv zeta.
  cbn [out_events]. unfold test_connection. rewrite bind_events.
  unfold createConnection. rewrite Hc. cbn [out_res out_events out_db].
  destruct rc as [[]|e]; [|reflexivity].
  match goal with
  | |- context [try_catch (bind (pool_execute ?q ?ps) ?body) ?hd db1] =>
      destruct (execute_then_released is_end q ps body hd db1)
        as [ends [Hev Hends]]
  end.
  - reflexivity.
  - intros rf db'. apply end_then.
    repeat first
      [ apply emits_only_ret
      | apply emits_only_lift
      | apply emits_only_driver_end; reflexivity
      | apply emits_only_if
      | apply emits_only_bind; [|intros ?] ].
  - intros e db'. apply end_then. apply emits_only_throw.
  - exists ends. split; [|exact Hends]. cbn [app]. f_equal. exact Hev.
Qed.

(** X14.  An error whose code is none of the nine the test knows is
    reported as "Connection failed: " followed by its message, or by
    "Unknown error" when it has none. *)
Theorem unknown_code_is_generic (data : JsVal) (db : DB) (error : JsError) :
  missing_required data = false ->
  out_res (test_connection data db) = Throw error ->
  known_code (e_code error) = false ->
  out_res (test data db)
  = Ok {| success := false;
          message := "Connection failed: "
                     ++ (if str_empty (e_message error) then "Unknown error"
                         else e_message error) |}.
Proof.
  intros Hm Ht Hk. rewrite (test_classifies data db Hm). cbv zeta.
  cbn [out_res]. rewrite Ht. unfold classify_error.
  unfold known_code in Hk. cbn [existsb] in Hk.
  repeat rewrite orb_false_iff in Hk.
  destruct Hk as [-> [-> [-> [-> [-> [-> [-> [-> [-> _]]]]]]]]].
  reflexivity.
Qed.

End TestPaths.

(* ================================================================== *)
(** * The table lister, on every path *)
(* ================================================================== *)

Section ListerPaths.

Context {DB : Type} `{Driver DB}.

Lemma runs_createConnection (config : Obj) (db db1 : DB) (r : Res unit) :
  drv_connect db config = (db1, r) ->
  runs (createConnection config) db db1 [EvCreateConnection config] r.
Proof. unfold runs, createConnection. now intros ->. Qed.

Lemma runs_end (db db1 : DB) (r : Res unit) :
  drv_end db = (db1, r) -> runs driver_end db db1 [EvEnd] r.
Proof. unfold runs, driver_end. now intros ->. Qed.

Lemma runs_execute (sql : JsVal) (params : list JsVal) (db db1 : DB)
      (r : Res (JsVal * JsVal)) :
  drv_execute db sql params = (db1, r) ->
  runs (pool_execute sql params) db db1 [EvExecute sql params] r.
Proof. unfold runs, pool_execute. now intros ->. Qed.

Lemma runs_load_failed (error : JsError) (db : DB) :
  runs (load_failed error) db db [load_failed_log error]
       (Ok [load_error_option error]).
Proof. reflexivity. Qed.

(** The [catch] of [getTables] once the connection is there. *)
Lemma runs_release_failed (error : JsError) (db db1 : DB) (r : Res unit) :
  drv_end db = (db1, r) ->
  runs (driver_end ;;; load_failed error) db db1
       (EvEnd :: match r with Ok _ => [load_failed_log error] | Throw _ => [] end)
       (match r with
        | Ok _ => Ok [load_error_option error]
        | Throw e => Throw e
        end).
Proof.
  intros He. destruct r as [[]|e].
  - eapply runs_as; [eapply runs_bind_ok;
                     [apply runs_end; exact He|apply runs_load_failed]| |];
      reflexivity.
  - eapply runs_as; [eapply runs_bind_throw; apply runs_end; exact He| |];
      reflexivity.
Qed.

Lemma runs_lister_credentials (h : Host) (db : DB) :
  runs (lister_credentials h) db db []
       (Ok (match getCredentials h "mysqlDb" with
            | Ok c => if credentials_selected h
                      then inr (connection_params h c)
                      else inl [no_credentials_option]
            | Throw e => inl [credentials_error_option e]
            end)).
Proof.
  unfold lister_credentials, credentials_selected.
  destruct (getCredentials h "mysqlDb") as [c|e].
  - apply runs_try_ok.
    eapply runs_as; [eapply runs_bind_ok; [now apply runs_lift|]| |];
      [|reflexivity|reflexivity].
    destruct (truthy c && truthy (get_prop_opt c "host"))%bool eqn:Hs.
    + apply negb_false_iff in Hs. rewrite negb_andb in Hs. rewrite Hs.
      apply runs_ret.
    + apply negb_true_iff in Hs. rewrite negb_andb in Hs. rewrite Hs.
      apply runs_ret.
  - eapply runs_as; [eapply runs_try_throw;
                     [eapply runs_bind_throw; now apply runs_lift
                     |apply runs_ret]| |]; reflexivity.
Qed.

(** Without credentials that pass, [getTables] answers one entry and makes
    no call. *)
Lemma getTables_unselected (h : Host) (db : DB) :
  credentials_selected h = false ->
  getTables h db
  = mkOut db []
      (Ok [match getCredentials h "mysqlDb" with
           | Ok _ => no_credentials_option
           | Throw e => credentials_error_option e
           end]).
Proof.
  intros Hsel. unfold getTables.
  pose proof (runs_lister_credentials h db) as Hl. rewrite Hsel in Hl.
  destruct (getCredentials h "mysqlDb") as [c|e];
    (eapply runs_conv;
     [eapply runs_bind_ok; [exact Hl|apply runs_ret]| |]); reflexivity.
Qed.

(** With credentials that pass, [getTables] is what it does with the
    connection. *)
Lemma getTables_selected (h : Host) (db : DB) (c : JsVal) :
  getCredentials h "mysqlDb" = Ok c ->
  credentials_selected h = true ->
  forall db' evs r,
    runs (connected <- try_catch
                         (createConnection
                            (lister_config (connection_params h c)) ;;; ret None)
                         (fun error => ret (Some error)) ;;
          match connected with
          | Some error => load_failed error
          | None =>
              try_catch (list_tables (connection_params h c))
                (fun error => driver_end ;;; load_failed error)
          end) db db' evs r ->
    getTables h db = mkOut db' evs r.
Proof.
  intros Hc Hsel db' evs r Hrun. unfold getTables.
  eapply runs_conv;
    [eapply runs_bind_ok; [apply runs_lister_credentials|]| |].
  - rewrite Hc, Hsel. exact Hrun.
  - reflexivity.
  - reflexivity.
Qed.

End ListerPaths.

Section ListerTheorems.

Context {DB : Type} `{Driver DB} `{Engine}.

Lemma getTables_events_selected (h : Host) (db : DB) (c : JsVal) :
  getCredentials h "mysqlDb" = Ok c ->
  credentials_selected h = true ->
  let p := connection_params h c in
  out_events (getTables h db)
  = match drv_connect db (lister_config p) with
    | (db1, Ok _) =>
        EvCreateConnection (lister_config p)
          :: out_events (try_catch (list_tables p)
                           (fun error => driver_end ;;; load_failed error) db1)
    | (db1, Throw e) =>
        [EvCreateConnection (lister_config p); load_failed_log e]
    end.
Proof.
  intros Hc Hsel p.
  destruct (drv_connect db (lister_config p)) as [db1 [[]|e]] eqn:Hconn.
  - erewrite (getTables_selected h db c Hc Hsel).
    2:{ eapply runs_bind_ok.
        - apply runs_try_ok.
          eapply runs_bind_ok;
            [apply runs_createConnection; exact Hconn|apply runs_ret].
        - apply runs_self. }
    reflexivity.
  - erewrite (getTables_selected h db c Hc Hsel).
    2:{ eapply runs_bind_ok.
        - eapply runs_try_throw.
          + eapply runs_bind_throw. apply runs_createConnection. exact Hconn.
          + apply runs_ret.
        - apply runs_load_failed. }
    reflexivity.
Qed.

(** X15.  [getTables] calls the driver only with credentials that pass the
    guard.  It then opens one connection; refused, nothing else is called
    but the logger; opened, the one statement executed is the catalog
    query, with the database name of the credentials as its only
    parameter, and the connection is then ended on every path. *)
Theorem getTables_trace (h : Host) (db : DB) :
  match getCredentials h "mysqlDb" with
  | Ok c =>
      if credentials_selected h then
        let config := lister_config (connection_params h c) in
        match drv_connect db config with
        | (_, Throw e) =>
            out_events (getTables h db)
            = [EvCreateConnection config; load_failed_log e]
        | (_, Ok _) =>
            exists rest,
              out_events (getTables h db)
              = EvCreateConnection config
                  :: EvExecute (JStr tables_query) [get_prop_opt c "database"]
                  :: EvEnd :: rest
              /\ forallb (fun ev => is_end ev || is_log ev)%bool rest = true
        end
      else out_events (getTables h db) = []
  | Throw _ => out_events (getTables h db) = []
  end.
Proof.
  destruct (getCredentials h "mysqlDb") as [c|e] eqn:Hc.
  - destruct (credentials_selected h) eqn:Hsel.
    + cbv zeta. rewrite (getTables_events_selected h db c Hc Hsel). cbv zeta.
      destruct (drv_connect db _) as [db1 [[]|e]]; [|reflexivity].
      unfold list_tables.
      match goal with
      | |- context [try_catch (bind (pool_execute ?q ?ps) ?body) ?hd db1] =>
          destruct (execute_then_released
                      (fun ev => is_end ev || is_log ev)%bool q ps body hd db1)
            as [rest [Hev Hall]]
      end.
      * reflexivity.
      * intros rf db'. apply end_then. apply emits_only_lift.
      * intros e db'. apply end_then. unfold load_failed, logger.
        apply emits_only_bind; [now apply emits_only_emit|intros ?].
        apply emits_only_ret.
      * exists rest. split; [|exact Hall]. f_equal. exact Hev.
    + now rewrite (getTables_unselected h db Hsel).
  - assert (Hsel : credentials_selected h = false).
    { unfold credentials_selected. now rewrite Hc. }
    now rewrite (getTables_unselected h db Hsel).
Qed.

Lemma drv_end_ok (db : DB) :
  (forall db', snd (drv_end db') = Ok tt) ->
  drv_end db = (fst (drv_end db), Ok tt).
Proof.
  intros Hend. specialize (Hend db). destruct (drv_end db). cbn in *.
  now subst.
Qed.

(** X16.  As long as ending a connection does not fail, [getTables] never
    throws: it answers either the entries of the rows the catalog query
    returned, or exactly one entry whose value is empty (for credentials
    that do not pass, a refused connection, a rejected query or rows that
    cannot be read). *)
Theorem getTables_always_answers (h : Host) (db : DB) :
  (forall db', snd (drv_end db') = Ok tt) ->
  exists options,
    out_res (getTables h db) = Ok options
    /\ ((exists o, options = [o] /\ opt_value o = JStr EmptyString)
        \/ (exists c db1 db2 rf,
              getCredentials h "mysqlDb" = Ok c
              /\ drv_connect db (lister_config (connection_params h c))
                 = (db1, Ok tt)
              /\ drv_execute db1 (JStr tables_query) [get_prop_opt c "database"]
                 = (db2, Ok rf)
              /\ table_options (fst rf) = Ok options)).
Proof.
  intros Hend.
  destruct (credentials_selected h) eqn:Hsel.
  2:{ rewrite (getTables_unselected h db Hsel). eexists. split; [reflexivity|].
      left. eexists. split; [reflexivity|].
      now destruct (getCredentials h "mysqlDb"). }
  assert (Hc : exists c, getCredentials h "mysqlDb" = Ok c).
  { unfold credentials_selected in Hsel.
    destruct (getCredentials h "mysqlDb"); [eauto|discriminate]. }
  destruct Hc as [c Hc].
  set (p := connection_params h c).
  destruct (drv_connect db (lister_config p)) as [db1 [[]|e]] eqn:Hconn.
  - destruct (drv_execute db1 (JStr tables_query) [param p "database"])
      as [db2 [rf|e]] eqn:Hx.
    + destruct (table_options (fst rf)) as [options|e] eqn:Ho.
      * erewrite (getTables_selected h db c Hc Hsel).
        2:{ eapply runs_bind_ok.
            - apply runs_try_ok.
              eapply runs_bind_ok;
                [apply runs_createConnection; exact Hconn|apply runs_ret].
            - apply runs_try_ok. unfold list_tables.
              eapply runs_bind_ok; [apply runs_execute; exact Hx|].
              eapply runs_bind_ok;
                [apply runs_end, (drv_end_ok db2 Hend)|].
              apply runs_lift. exact Ho. }
        exists options. split; [reflexivity|]. right.
        exists c, db1, db2, rf. repeat split; assumption.
      * erewrite (getTables_selected h db c Hc Hsel).
        2:{ eapply runs_bind_ok.
            - apply runs_try_ok.
              eapply runs_bind_ok;
                [apply runs_createConnection; exact Hconn|apply runs_ret].
            - eapply runs_try_throw.
              + unfold list_tables.
                eapply runs_bind_ok; [apply runs_execute; exact Hx|].
                eapply runs_bind_ok;
                  [apply runs_end, (drv_end_ok db2 Hend)|].
                apply runs_lift. exact Ho.
              + apply runs_release_failed, (drv_end_ok _ Hend). }
        eexists. split; [reflexivity|]. left.
        eexists. split; reflexivity.
    + erewrite (getTables_selected h db c Hc Hsel).
      2:{ eapply runs_bind_ok.
          - apply runs_try_ok.
            eapply runs_bind_ok;
              [apply runs_createConnection; exact Hconn|apply runs_ret].
          - eapply runs_try_throw.
            + unfold list_tables.
              eapply runs_bind_throw. apply runs_execute. exact Hx.
            + apply runs_release_failed, (drv_end_ok _ Hend). }
      eexists. split; [reflexivity|]. left. eexists. split; reflexivity.
  - erewrite (getTables_selected h db c Hc Hsel).
    2:{ eapply runs_bind_ok.
        - eapply runs_try_throw.
          + eapply runs_bind_throw. apply runs_createConnection. exact Hconn.
          + apply runs_ret.
        - apply runs_load_failed. }
    eexists. split; [reflexivity|]. left. eexists. split; reflexivity.
Qed.

Lemma table_options_rows (rows : list JsVal) :
  Forall (fun row => nullish row = false) rows ->
  table_options (JArr rows) = Ok (map option_of_row rows).
Proof.
  intros Hall. cbn [table_options].
  induction Hall as [|row rows Hrow Hall IH]; [reflexivity|].
  cbn [map_res map]. rewrite IH.
  unfold table_option, table_name_of.
  rewrite !(get_prop_not_nullish _ _ Hrow). reflexivity.
Qed.

(** X17.  When the catalog query returns rows, [getTables] answers one
    entry per row, in the order of the rows; the name and the value of an
    entry are the row's [table_name], or its [TABLE_NAME] when that is
    missing or empty, and the description is "Table: " followed by the
    name. *)
Theorem getTables_lists_rows (h : Host) (db db1 db2 db3 : DB) (c : JsVal)
        (rows : list JsVal) (meta : JsVal) :
  getCredentials h "mysqlDb" = Ok c ->
  credentials_selected h = true ->
  drv_connect db (lister_config (connection_params h c)) = (db1, Ok tt) ->
  drv_execute db1 (JStr tables_query) [get_prop_opt c "database"]
  = (db2, Ok (JArr rows, meta)) ->
  drv_end db2 = (db3, Ok tt) ->
  Forall (fun row => nullish row = false) rows ->
  getTables h db
  = mkOut db3
      [EvCreateConnection (lister_config (connection_params h c));
       EvExecute (JStr tables_query) [get_prop_opt c "database"];
       EvEnd]
      (Ok (map option_of_row rows)).
Proof.
  intros Hc Hsel Hconn Hx Hend Hrows.
  erewrite (getTables_selected h db c Hc Hsel).
  2:{ eapply runs_bind_ok.
      - apply runs_try_ok.
        eapply runs_bind_ok;
          [apply runs_createConnection; exact Hconn|apply runs_ret].
      - apply runs_try_ok. unfold list_tables.
        eapply runs_bind_ok; [apply runs_execute; exact Hx|].
        eapply runs_bind_ok; [apply runs_end; exact Hend|].
        apply runs_lift. cbn [fst]. now apply table_options_rows. }
  reflexivity.
Qed.

(** X18.  [getTables] and [execute] connect with the same settings: for
    the same host, the configuration of the connection of the one and of
    the pool of the other hold the same host, port, database, user,
    password, ssl option and connect timeout. *)
Theorem same_connection_settings (h : Host) (inputData : InputData)
        (db db' : DB) :
  credentials_selected h = true ->
  exists connection pool,
    hd_error (out_events (getTables h db)) = Some (EvCreateConnection connection)
    /\ In (EvCreatePool pool) (out_events (execute h inputData db'))
    /\ (forall k, In k connection_keys ->
                  obj_get k connection = obj_get k pool)
    /\ keys connection = connection_keys.
Proof.
  intros Hsel.
  assert (Hc : exists c, getCredentials h "mysqlDb" = Ok c).
  { unfold credentials_selected in Hsel.
    destruct (getCredentials h "mysqlDb"); [eauto|discriminate]. }
  destruct Hc as [c Hc].
  exists (lister_config (connection_params h c)),
         (pool_config (connection_params h c)).
  split; [|split; [|split]].
  - rewrite (getTables_events_selected h db c Hc Hsel). cbv zeta.
    now destruct (drv_connect db _) as [db1 [[]|e]].
  - rewrite (execute_selected h inputData db' c Hc Hsel). cbv zeta.
    cbn [out_events]. apply in_or_app. right.
    apply in_or_app. left. right. now left.
  - intros k Hk. cbn in Hk.
    repeat (destruct Hk as [<-|Hk]; [reflexivity|]). contradiction.
  - reflexivity.
Qed.

End ListerTheorems.

(* ================================================================== *)
(** * Marshaled parameters *)
(* ================================================================== *)

Lemma rev_string_acc (acc s : string) :
  rev_string acc s = rev_string EmptyString s ++ acc.
Proof.
  revert acc. induction s as [|c s IH]; intros acc; [reflexivity|].
  cbn [rev_string]. rewrite (IH (String c acc)), (IH (String c EmptyString)).
  now rewrite append_assoc.
Qed.

Lemma rev_string_app (a b : string) :
  rev_string EmptyString (a ++ b)
  = rev_string EmptyString b ++ rev_string EmptyString a.
Proof.
  induction a as [|c a IH]; cbn [append rev_string].
  - now rewrite append_nil_r.
  - rewrite (rev_string_acc (String c EmptyString) (a ++ b)), IH.
    rewrite (rev_string_acc (String c EmptyString) a).
    now rewrite append_assoc.
Qed.

Lemma rev_string_involutive (s : string) :
  rev_string EmptyString (rev_string EmptyString s) = s.
Proof.
  induction s as [|c s IH]; [reflexivity|].
  cbn [rev_string]. rewrite (rev_string_acc (String c EmptyString) s).
  rewrite rev_string_app, IH. reflexivity.
Qed.

Lemma trim_left_no_space (s : string) : starts_space (trim_left s) = false.
Proof.
  induction s as [|c s IH]; [reflexivity|].
  cbn [trim_left]. destruct (is_space c) eqn:E; [exact IH|].
  cbn. exact E.
Qed.

Lemma trim_left_suffix (s : string) : exists pre, s = pre ++ trim_left s.
Proof.
  induction s as [|c s [pre IH]]; [now exists EmptyString|].
  cbn [trim_left]. destruct (is_space c).
  - exists (String c pre). cbn. now rewrite <- IH.
  - now exists EmptyString.
Qed.

Lemma trim_trimmed (s : string) : trimmed (trim s) = true.
Proof.
  unfold trimmed, trim.
  set (u := trim_left s).
  set (w := trim_left (rev_string EmptyString u)).
  rewrite rev_string_involutive.
  assert (Hw : starts_space w = false) by apply trim_left_no_space.
  rewrite Hw. rewrite andb_true_r. apply negb_true_iff.
  destruct (trim_left_suffix (rev_string EmptyString u)) as [pre Hpre].
  fold w in Hpre.
  assert (Hu : u = rev_string EmptyString w ++ rev_string EmptyString pre).
  { rewrite <- rev_string_app, <- Hpre. now rewrite rev_string_involutive. }
  assert (Hus : starts_space u = false) by apply trim_left_no_space.
  destruct (rev_string EmptyString w) as [|c t]; [reflexivity|].
  rewrite Hu in Hus. exact Hus.
Qed.

Lemma comma_free_app (a b : string) :
  comma_free (a ++ b) = (comma_free a && comma_free b)%bool.
Proof.
  induction a as [|c a IH]; [reflexivity|].
  cbn. rewrite IH. now rewrite andb_assoc.
Qed.

Lemma comma_free_rev (s : string) :
  comma_free (rev_string EmptyString s) = comma_free s.
Proof.
  induction s as [|c s IH]; [reflexivity|].
  cbn [rev_string]. rewrite rev_string_acc, comma_free_app, IH.
  cbn. rewrite andb_true_r. apply andb_comm.
Qed.

Lemma comma_free_trim_left (s : string) :
  comma_free s = true -> comma_free (trim_left s) = true.
Proof.
  intros Hs. destruct (trim_left_suffix s) as [pre Hpre].
  rewrite Hpre, comma_free_app in Hs. now apply andb_true_iff in Hs.
Qed.

Lemma comma_free_trim (s : string) :
  comma_free s = true -> comma_free (trim s) = true.
Proof.
  intros Hs. unfold trim. rewrite comma_free_rev.
  apply comma_free_trim_left. rewrite comma_free_rev.
  now apply comma_free_trim_left.
Qed.

Lemma split_comma_aux_cons (cur s : string) :
  exists x l, split_comma_aux cur s = x :: l.
Proof.
  revert cur. induction s as [|c s IH]; intros cur; cbn; [eauto|].
  destruct (Ascii.eqb c ","%char); eauto.
Qed.

Lemma join_split_comma_aux (cur s : string) :
  join "," (split_comma_aux cur s) = cur ++ s.
Proof.
  revert cur. induction s as [|c s IH]; intros cur; cbn [split_comma_aux].
  - cbn. now rewrite append_nil_r.
  - destruct (Ascii.eqb c ","%char) eqn:E.
    + apply Ascii.eqb_eq in E. subst c.
      destruct (split_comma_aux_cons EmptyString s) as [x [l Hx]].
      specialize (IH EmptyString). rewrite Hx in *.
      change (join "," (cur :: x :: l)) with (cur ++ "," ++ join "," (x :: l)).
      rewrite IH. reflexivity.
    + rewrite IH, append_assoc. reflexivity.
Qed.

Lemma length_split_comma_aux (cur s : string) :
  List.length (split_comma_aux cur s) = S (count_commas s).
Proof.
  revert cur. induction s as [|c s IH]; intros cur; cbn; [reflexivity|].
  destruct (Ascii.eqb c ","%char); cbn; now rewrite IH.
Qed.

Lemma comma_free_split_comma_aux (cur s : string) :
  comma_free cur = true ->
  Forall (fun piece => comma_free piece = true) (split_comma_aux cur s).
Proof.
  revert cur. induction s as [|c s IH]; intros cur Hcur; cbn.
  - constructor; [exact Hcur|constructor].
  - destruct (Ascii.eqb c ","%char) eqn:E.
    + constructor; [exact Hcur|]. now apply IH.
    + apply IH. rewrite comma_free_app, Hcur. cbn. now rewrite E.
Qed.

(** X19.  A parameter text that is not empty marshals to one string per
    piece between commas: as many as there are commas, plus one; each is
    its piece with the white space at both ends removed, holds no comma,
    and the pieces joined by commas are the text again.  The empty text
    marshals to no parameter. *)
Theorem marshal_pieces (name text : string) :
  text <> EmptyString ->
  marshal_params name (JStr text)
  = Ok (map (fun piece => JStr (trim piece)) (split_comma text))
  /\ join "," (split_comma text) = text
  /\ List.length (split_comma text) = S (count_commas text)
  /\ Forall (fun piece => comma_free (trim piece) = true
                          /\ trimmed (trim piece) = true)
            (split_comma text)
  /\ marshal_params name (JStr EmptyString) = Ok [].
Proof.
  intros Hne. unfold split_comma. split; [|split; [|split; [|split]]].
  - unfold marshal_params. cbn [truthy].
    destruct text; [congruence|reflexivity].
  - apply (join_split_comma_aux EmptyString).
  - apply length_split_comma_aux.
  - pose proof (comma_free_split_comma_aux EmptyString text eq_refl) as Hall.
    induction Hall as [|piece l Hp Hall IH]; constructor; [|exact IH].
    split; [now apply comma_free_trim|apply trim_trimmed].
  - reflexivity.
Qed.

(* ================================================================== *)
(** * Columns and parameters, position by position *)
(* ================================================================== *)

Section Alignment.

Context `{Engine}.

Lemma nth_error_own_props (o : Obj) (i : nat) (col : string) (v : JsVal) :
  NoDup (keys o) ->
  nth_error (ordered_props o) i = Some (col, v) ->
  obj_get col o = Some v.
Proof.
  intros Hnd Hn. apply In_obj_get; [exact Hnd|].
  eapply Permutation_in; [apply ordered_props_Permutation|].
  eapply nth_error_In. exact Hn.
Qed.

(** X20.  In an Insert and in an Update the parameters follow the columns:
    parameter number [i] is the value the data object holds under column
    number [i] of the statement, for every column; in an Update the where
    parameters come after them. *)
Theorem parameters_follow_columns (h : Host) (c : Crud) (o : Obj)
        (q : string) (ps : list JsVal) :
  c = CInsert \/ c = CUpdate ->
  parse_data (getNodeParameter h "data") = Ok (JObj o) ->
  NoDup (keys o) ->
  statement_of h c = Ok (q, ps) ->
  q = statement_text h c (columns_of h c)
  /\ List.length (columns_of h c) = List.length o
  /\ (forall i col, nth_error (columns_of h c) i = Some col ->
       exists v, nth_error ps i = Some v /\ obj_get col o = Some v)
  /\ skipn (List.length o) ps = params_of h c.
Proof.
  intros Hc Hd Hnd Hs.
  destruct (statement_text_of h c q ps Hs) as [Hq Hps].
  assert (Hcols : columns_of h c = map fst (ordered_props o)).
  { unfold columns_of, data_columns. rewrite Hd.
    destruct Hc as [-> | ->]; reflexivity. }
  assert (Hvals : values_of h c = map snd (ordered_props o)).
  { unfold values_of, data_values. rewrite Hd.
    destruct Hc as [-> | ->]; reflexivity. }
  assert (Hlen : List.length (ordered_props o) = List.length o).
  { apply Permutation_length, ordered_props_Permutation. }
  split; [exact Hq|]. split; [|split].
  - now rewrite Hcols, length_map.
  - intros i col Hi. rewrite Hcols in Hi.
    rewrite nth_error_map in Hi.
    destruct (nth_error (ordered_props o) i) as [[col' v]|] eqn:Hn;
      [|discriminate].
    cbn in Hi. injection Hi as ->. exists v. split.
    + rewrite Hps, Hvals. rewrite nth_error_app1.
      * now rewrite nth_error_map, Hn.
      * rewrite length_map. apply nth_error_Some. now rewrite Hn.
    + eapply nth_error_own_props; eauto.
  - rewrite Hps, Hvals.
    rewrite skipn_app, length_map, Hlen, Nat.sub_diag.
    rewrite skipn_all2 by (rewrite length_map; lia).
    reflexivity.
Qed.

End Alignment.

Section DefaultPolicy.

Context {DB : Type} `{Driver DB} `{Engine}.

(** X21.  Without a continue-on-fail setting the policy is to abort: when
    the operation fails on the first item, the invocation makes the calls
    of that item only, closes the pool and fails with the item's error. *)
Theorem abort_is_default (h : Host) (inputData : InputData) (db : DB)
        (c : JsVal) (e : JsError) :
  nullish (get_prop_opt (settings h) "continueOnFail") = true ->
  getCredentials h "mysqlDb" = Ok c ->
  credentials_selected h = true ->
  out_res (process_item h (getNodeParameter h "operation") db) = Throw e ->
  let first := process_item h (getNodeParameter h "operation") db in
  out_events (execute h inputData db)
  = (opening_events h ++ setup_events h c ++ out_events first ++ [EvEnd])%list
  /\ (snd (drv_end (out_db first)) = Ok tt ->
      out_res (execute h inputData db) = Throw e).
Proof.
  intros Hnull Hc Hsel He. cbv zeta.
  assert (Hcof : continueOnFail h = JBool false).
  { unfold continueOnFail, js_coalesce. now rewrite Hnull. }
  rewrite (execute_selected h inputData db c Hc Hsel). cbv zeta.
  destruct (itemsToProcess inputData) as [|item rest] eqn:Hi.
  { unfold itemsToProcess in Hi. destruct (input_items inputData); discriminate. }
  rewrite process_items_cons. cbv zeta. rewrite He, Hcof.
  cbn [outcome_fields truthy out_db out_events out_res].
  split; [reflexivity|]. now intros ->.
Qed.

End DefaultPolicy.

(* ================================================================== *)
(** * The properties above, at example invocations *)
(* ================================================================== *)

Lemma pool_opened_and_closed_once_witness :
  count_events is_create_pool
    (out_events (@execute nat (scripted (Example.failing_at 1)) RefJson.engine
                   (Example.host false Example.select_t)
                   (Example.input Example.three_items) 0%nat)) = 1%nat
  /\ count_events is_end
       (out_events (@execute nat (scripted (Example.failing_at 1)) RefJson.engine
                      (Example.host false Example.select_t)
                      (Example.input Example.three_items) 0%nat)) = 1%nat.
Proof.
  destruct (@pool_opened_and_closed_once nat (scripted (Example.failing_at 1))
              RefJson.engine (Example.host false Example.select_t)
              (Example.input Example.three_items) 0%nat eq_refl)
    as [c [before [trace [_ [_ [_ [_ [Hp [He _]]]]]]]]].
  split; [exact Hp|exact He].
Defined.

Lemma pool_end_failure_replaces_outcome_witness :
  out_res (@execute nat (scripted Example.end_fails) RefJson.engine
             (Example.host true Example.select_t)
             (Example.input Example.three_items) 0%nat)
  = Throw Example.pool_closed.
Proof.
  apply (@pool_end_failure_replaces_outcome nat (scripted Example.end_fails)
           RefJson.engine (Example.host true Example.select_t)
           (Example.input Example.three_items) 0%nat Example.pool_closed);
    reflexivity.
Defined.

Lemma statement_error_before_driver_witness :
  @process_item nat (scripted Example.healthy) RefJson.engine
    (Example.host true Example.insert_bad_json) (JStr "insert") 0%nat
  = mkOut 0%nat []
      (Throw (Error "Invalid JSON data: Unexpected token in JSON"))
  /\ @handle_item nat (scripted Example.healthy) RefJson.engine
       (Example.host true Example.insert_bad_json) (JBool true) (JStr "insert")
       Example.item_plain 0%nat
     = mkOut 0%nat []
         (Ok (record Example.item_plain
                (error_fields
                   (Error "Invalid JSON data: Unexpected token in JSON")))).
Proof.
  apply (@statement_error_before_driver nat (scripted Example.healthy)
           RefJson.engine (Example.host true Example.insert_bad_json) CInsert
           (Error "Invalid JSON data: Unexpected token in JSON")
           (JBool true) Example.item_plain 0%nat).
  reflexivity.
Defined.

Lemma invalid_json_data_witness :
  @process_item nat (scripted Example.healthy) RefJson.engine
    (Example.host true Example.insert_bad_json) (JStr "insert") 0%nat
  = mkOut 0%nat []
      (Throw (Error ("Invalid JSON data: "
                     ++ e_message RefJson.syntax_error))).
Proof.
  apply (@invalid_json_data nat (scripted Example.healthy) RefJson.engine
           (Example.host true Example.insert_bad_json) CInsert "{a:1}"
           RefJson.syntax_error 0%nat).
  - left. reflexivity.
  - reflexivity.
  - reflexivity.
Defined.

Lemma unknown_operation_witness :
  out_res (@execute nat (scripted Example.healthy) RefJson.engine
             (Example.host true Example.upsert)
             (Example.input Example.three_items) 0%nat)
  = Ok (map (fun item =>
               record item (error_fields (Error "Unknown operation: upsert")))
            Example.three_items).
Proof.
  apply (@unknown_operation nat (scripted Example.healthy) RefJson.engine
           (Example.host true Example.upsert)
           (Example.input Example.three_items) 0%nat);
    reflexivity.
Defined.

Lemma executeQuery_rows_array_witness :
  exists rows,
    obj_get "rows"
      [("rows", JArr [Example.header 1 5]); ("rowCount", JNum 1);
       ("affectedRows", JNum 1); ("insertId", JNum 5);
       ("fields", JUndefined)] = Some (JArr rows)
    /\ obj_get "rowCount"
         [("rows", JArr [Example.header 1 5]); ("rowCount", JNum 1);
          ("affectedRows", JNum 1); ("insertId", JNum 5);
          ("fields", JUndefined)]
       = Some (JNum (Z.of_nat (List.length rows))).
Proof.
  destruct (@executeQuery_rows_array nat (scripted (Example.writes 1 5))
              RefJson.engine (Example.host false Example.raw_query) 0%nat
              [("rows", JArr [Example.header 1 5]); ("rowCount", JNum 1);
               ("affectedRows", JNum 1); ("insertId", JNum 5);
               ("fields", JUndefined)] eq_refl)
    as [rows [Hr [Hc _]]].
  exists rows. split; [exact Hr|exact Hc].
Defined.

Lemma select_limit_switch_witness :
  (forall v,
      select_statement
        (with_param (Example.host false Example.select_t) "limit" v)
      = select_statement (Example.host false Example.select_t))
  /\ select_statement (Example.host false (Example.select_limit 50))
     = Ok ("SELECT id,name FROM `t` LIMIT 50", []).
Proof.
  split.
  - apply (proj1 (select_limit_switch (Example.host false Example.select_t))).
    reflexivity.
  - apply (proj2 (select_limit_switch (Example.host false (Example.select_limit 50)))
             eq_refl "SELECT id,name FROM `t`" [] eq_refl).
Defined.


Lemma inserted_row_merged_witness :
  exists inserted,
    out_res (@process_item nat (scripted Example.write_then_row) RefJson.engine
               (Example.host false Example.insert_t) (JStr "insert") 0%nat)
    = Ok [("inserted", JObj inserted); ("rowCount", JNum 1)]
    /\ obj_get "id" inserted = Some (JNum 5)
    /\ obj_get "insertId" inserted = Some (JNum 5).
Proof.
  destruct (@inserted_row_merged nat (scripted Example.write_then_row)
              RefJson.engine (Example.host false Example.insert_t)
              0%nat 1%nat 2%nat (JObj [("a", JNum 1); ("b", JNum 2)])
              "INSERT INTO `t` (`a`, `b`) VALUES (?, ?)" [JNum 1; JNum 2]
              (Example.header 1 5, JUndefined) [Example.fetched_row] (JArr [])
              eq_refl eq_refl eq_refl eq_refl eq_refl eq_refl)
    as [inserted [Hrun [_ Hget]]].
  exists inserted. split; [now rewrite Hrun|].
  assert (Hnd : NoDup (keys [("id", JNum 5); ("a", JNum 1); ("b", JNum 2)])).
  { repeat constructor; simpl; intuition discriminate. }
  split.
  - now rewrite (Hget _ _ eq_refl Hnd "id").
  - now rewrite (Hget _ _ eq_refl Hnd "insertId").
Defined.

Lemma updated_rows_read_back_witness :
  @process_item nat (scripted Example.write_then_row) RefJson.engine
    (Example.host false Example.update_by_id) (JStr "update") 0%nat
  = mkOut 2%nat
      [EvExecute (JStr "UPDATE `t` SET `a` = ?, `b` = ? WHERE id = ?")
                 [JNum 1; JNum 2; JStr "7"];
       EvExecute (JStr "SELECT * FROM `t` WHERE id = ?") [JStr "7"]]
      (Ok [("updated", JArr [Example.fetched_row]); ("rowCount", JNum 1);
           ("changedRows", JNum 1)]).
Proof.
  apply (proj1 (@updated_rows_read_back nat (scripted Example.write_then_row)
                  RefJson.engine (Example.host false Example.update_by_id)
                  0%nat 1%nat 2%nat (JObj [("a", JNum 1); ("b", JNum 2)])
                  "UPDATE `t` SET `a` = ?, `b` = ? WHERE id = ?"
                  [JNum 1; JNum 2; JStr "7"] [JStr "7"]
                  (Example.header 1 5, JUndefined)
                  (JArr [Example.fetched_row], JArr [])
                  eq_refl eq_refl eq_refl eq_refl eq_refl eq_refl eq_refl
                  eq_refl)).
Defined.

Lemma test_always_answers_witness :
  exists r,
    out_res (@test nat (scripted (Example.failing_at 0)) Example.credentials
               0%nat) = Ok r
    /\ (success r = true ->
        exists db1 db2 rf,
          @drv_connect nat (scripted (Example.failing_at 0)) 0%nat
            (test_config Example.credentials) = (db1, Ok tt)
          /\ @drv_execute nat (scripted (Example.failing_at 0)) db1
               liveness_query [] = (db2, Ok rf)).
Proof.
  apply (@test_always_answers nat (scripted (Example.failing_at 0))
           Example.credentials 0%nat).
  reflexivity.
Defined.

Lemma test_releases_connection_witness :
  exists ends,
    out_events (@test nat (scripted (Example.failing_at 0)) Example.credentials
                  0%nat)
    = (EvCreateConnection (test_config Example.credentials)
         :: EvExecute liveness_query [] :: EvEnd :: ends)%list
    /\ forallb is_end ends = true.
Proof.
  apply (@test_releases_connection nat (scripted (Example.failing_at 0))
           Example.credentials 0%nat 0%nat (Ok tt)); reflexivity.
Defined.

Lemma unknown_code_is_generic_witness :
  out_res (@test nat (scripted (Example.refusing Example.no_such_table))
             Example.credentials 0%nat)
  = Ok {| success := false;
          message := "Connection failed: Table 'shop.t' doesn't exist" |}.
Proof.
  apply (@unknown_code_is_generic nat
           (scripted (Example.refusing Example.no_such_table))
           Example.credentials 0%nat Example.no_such_table); reflexivity.
Defined.

Lemma getTables_always_answers_witness :
  exists options,
    out_res (@getTables nat (scripted (Example.failing_at 0))
               (Example.host false []) 0%nat) = Ok options
    /\ List.length options = 1%nat.
Proof.
  destruct (@getTables_always_answers nat (scripted (Example.failing_at 0))
              (Example.host false []) 0%nat (fun _ => eq_refl))
    as [options [Hr _]].
  exists options. split; [exact Hr|].
  vm_compute in Hr. injection Hr as <-. reflexivity.
Defined.

Lemma getTables_lists_rows_witness :
  out_res (@getTables nat (scripted Example.two_tables)
             (Example.host false []) 0%nat)
  = Ok [ {| opt_name := JStr "orders"; opt_value := JStr "orders";
            opt_description := JStr "Table: orders" |};
         {| opt_name := JStr "users"; opt_value := JStr "users";
            opt_description := JStr "Table: users" |} ].
Proof.
  assert (Hrows : Forall (fun row => nullish row = false)
                    [JObj [("TABLE_NAME", JStr "orders")];
                     JObj [("table_name", JStr "users")]]).
  { repeat constructor. }
  rewrite (@getTables_lists_rows nat (scripted Example.two_tables)
             (Example.host false []) 0%nat 0%nat 1%nat 1%nat
             Example.credentials
             [JObj [("TABLE_NAME", JStr "orders")];
              JObj [("table_name", JStr "users")]] JUndefined
             eq_refl eq_refl eq_refl eq_refl eq_refl Hrows).
  reflexivity.
Defined.

Lemma same_connection_settings_witness :
  exists connection pool,
    hd_error (out_events (@getTables nat (scripted Example.healthy)
                            (Example.host false Example.select_t) 0%nat))
    = Some (EvCreateConnection connection)
    /\ In (EvCreatePool pool)
          (out_events (@execute nat (scripted Example.healthy) RefJson.engine
                         (Example.host false Example.select_t)
                         (Example.input []) 0%nat))
    /\ (forall k, In k connection_keys ->
                  obj_get k connection = obj_get k pool)
    /\ keys connection = connection_keys.
Proof.
  apply (@same_connection_settings nat (scripted Example.healthy)
           RefJson.engine (Example.host false Example.select_t)
           (Example.input []) 0%nat 0%nat).
  reflexivity.
Defined.

Lemma marshal_pieces_witness :
  marshal_params "whereParamsStr" (JStr "123, active")
  = Ok [JStr "123"; JStr "active"]
  /\ List.length (split_comma "123, active") = 2%nat.
Proof.
  destruct (marshal_pieces "whereParamsStr" "123, active")
    as [Hm [_ [Hl _]]]; [discriminate|].
  split; [exact Hm|exact Hl].
Defined.

Lemma parameters_follow_columns_witness :
  (exists v,
      nth_error [JNum 1; JNum 2; JStr "7"] 1 = Some v
      /\ obj_get "b" [("a", JNum 1); ("b", JNum 2)] = Some v)
  /\ skipn 2 [JNum 1; JNum 2; JStr "7"]
     = params_of
         (Example.host false Example.update_by_id) CUpdate.
Proof.
  assert (Hnd : NoDup (keys [("a", JNum 1); ("b", JNum 2)])).
  { repeat constructor; simpl; intuition discriminate. }
  destruct (@parameters_follow_columns RefJson.engine
              (Example.host false Example.update_by_id) CUpdate
              [("a", JNum 1); ("b", JNum 2)]
              "UPDATE `t` SET `a` = ?, `b` = ? WHERE id = ?"
              [JNum 1; JNum 2; JStr "7"]
              (or_intror eq_refl) eq_refl Hnd eq_refl)
    as [_ [_ [Hcol Hrest]]].
  split; [|exact Hrest].
  apply (Hcol 1%nat "b"). reflexivity.
Defined.

Lemma abort_is_default_witness :
  out_res (@execute nat (scripted (Example.failing_at 0)) RefJson.engine
             (Example.bare_host Example.select_t)
             (Example.input Example.three_items) 0%nat)
  = Throw Example.no_such_table.
Proof.
  apply (proj2 (@abort_is_default nat (scripted (Example.failing_at 0))
                  RefJson.engine (Example.bare_host Example.select_t)
                  (Example.input Example.three_items) 0%nat
                  Example.credentials Example.no_such_table
                  eq_refl eq_refl eq_refl eq_refl)).
  reflexivity.
Defined.
